(** * gbm_gralloc: the allocator facade of [gralloc.cpp]

    A shallow embedding of [src/gralloc.cpp] (the HAL module table of the
    GBM graphics-buffer allocator) together with the properties its
    specification states about it.

    Layout of the development:
    - [Int]: the machine integers of the C++ source ([int], [uint32_t]).
    - the data the facade manipulates (module state, handles, buffer objects);
    - a state monad with one trap (integer division by zero) in which the
      C++ functions are written statement by statement;
    - the collaborators that live in [gralloc_gbm.cpp] (not part of
      [gralloc.cpp]); they are modelled from the specification and marked so;
    - the functions of [gralloc.cpp], in source order;
    - the theorems. *)

From Stdlib Require Import ZArith Lia.
From stdpp Require Import gmap strings list fin_maps.

Local Open Scope Z_scope.

(** ** Machine integers *)

Module Int.

(** [static_cast<uint32_t>(z)] and the value kept by a [uint32_t]. *)
Definition to_uint32 (z : Z) : Z := z mod 2 ^ 32.

(** The value an [int] object holds after a 32-bit two's-complement
    conversion (what an assignment of a [uint32_t] to an [int] does). *)
Definition to_int32 (z : Z) : Z := (z + 2 ^ 31) mod 2 ^ 32 - 2 ^ 31.

Definition INT_MAX : Z := 2 ^ 31 - 1.
Definition INT_MIN : Z := - 2 ^ 31.

End Int.

(** ** Constants of the platform headers *)

(** [errno.h] *)
Definition EINVAL : Z := 22.

(** [system/graphics.h]: the pixel formats named by [gralloc_gbm_get_bpp]. *)
Definition HAL_PIXEL_FORMAT_RGBA_8888 : Z := 1.
Definition HAL_PIXEL_FORMAT_RGBX_8888 : Z := 2.
Definition HAL_PIXEL_FORMAT_RGB_888 : Z := 3.
Definition HAL_PIXEL_FORMAT_RGB_565 : Z := 4.
Definition HAL_PIXEL_FORMAT_BGRA_8888 : Z := 5.
Definition HAL_PIXEL_FORMAT_YCbCr_422_SP : Z := 16.
Definition HAL_PIXEL_FORMAT_YCrCb_420_SP : Z := 17.
Definition HAL_PIXEL_FORMAT_YCbCr_422_I : Z := 20.
Definition HAL_PIXEL_FORMAT_YV12 : Z := 842094169. (* 0x32315659 *)

(** [hardware/gralloc.h] and [hardware/hardware.h] *)
Definition GRALLOC_HARDWARE_GPU0 : string := "gpu0".
Definition HARDWARE_DEVICE_TAG : Z := 1213678676. (* 'H' 'W' 'D' 'T' *)

(** ** [gralloc_gbm_get_bpp] (gralloc.cpp:48) *)

Definition gralloc_gbm_get_bpp (format : Z) : Z :=
  if decide (format = HAL_PIXEL_FORMAT_RGBA_8888
             ∨ format = HAL_PIXEL_FORMAT_RGBX_8888
             ∨ format = HAL_PIXEL_FORMAT_BGRA_8888) then 4
  else if decide (format = HAL_PIXEL_FORMAT_RGB_888) then 3
  else if decide (format = HAL_PIXEL_FORMAT_RGB_565
                  ∨ format = HAL_PIXEL_FORMAT_YCbCr_422_I) then 2
  else if decide (format = HAL_PIXEL_FORMAT_YV12
                  ∨ format = HAL_PIXEL_FORMAT_YCbCr_422_SP
                  ∨ format = HAL_PIXEL_FORMAT_YCrCb_420_SP) then 1
  else 0.

(** ** Data *)

(** The backend device ([struct gbm_device]); only its descriptor is read. *)
Record gbm_device := { dev_fd : Z }.

(** A backend allocation ([struct gbm_bo]): its identity and the row stride
    in bytes that [gbm_bo_get_stride] reports. *)
Record gbm_bo := { gbm_bo_id : Z; gbm_bo_stride : Z }.

(** [buffer_handle_t]: the transferable descriptor; [h_payload] is the
    backend identity it carries across processes. *)
Record buffer_handle_t := {
  h_format : Z;
  h_usage : Z;
  h_width : Z;
  h_height : Z;
  h_payload : list Z
}.

(** [struct gralloc_gbm_bo_t]: the live buffer object of this process. *)
Record gralloc_gbm_bo_t := {
  bo : gbm_bo;
  handle : buffer_handle_t;
  refcount : Z;
  locked : bool;
  map_data : option Z
}.

(** Effects on the collaborators outside the module, most recent first. *)
Inductive call :=
| DevCreate (d : gbm_device)
| DevDestroy (d : option gbm_device)
| BoCreate (b : gbm_bo)
| BoImport (b : gbm_bo)
| BoDestroy (b : gbm_bo)
| BoMap (b : gbm_bo)
| BoUnmap (b : gbm_bo)
| NativeHandleClose (h : buffer_handle_t)
| HandleDelete (h : buffer_handle_t).

(** The process state the facade works on: [gbm] is [dmod->gbm] of
    [struct gbm_module_t], [errno] the C library's error number, [registry]
    the process-local table from handle payload to live buffer object, and
    [calls] the effects performed so far. *)
Record state := {
  gbm : option gbm_device;
  errno : Z;
  registry : gmap (list Z) gralloc_gbm_bo_t;
  calls : list call
}.

(** [HAL_MODULE_INFO_SYM]: [.gbm = NULL]. *)
Definition HAL_MODULE_INFO_SYM : state :=
  {| gbm := None; errno := 0; registry := ∅; calls := [] |}.

Definition set_gbm (d : option gbm_device) (s : state) : state :=
  {| gbm := d; errno := errno s; registry := registry s; calls := calls s |}.
Definition set_errno (e : Z) (s : state) : state :=
  {| gbm := gbm s; errno := e; registry := registry s; calls := calls s |}.
Definition set_registry (r : gmap (list Z) gralloc_gbm_bo_t) (s : state) : state :=
  {| gbm := gbm s; errno := errno s; registry := r; calls := calls s |}.
Definition record (c : call) (s : state) : state :=
  {| gbm := gbm s; errno := errno s; registry := registry s; calls := c :: calls s |}.

(** What the backend driver and the C++ runtime answer during one facade
    call.  They are outside the allocator: every theorem quantifies over
    them. *)
Record driver := {
  (** opening the device: the device, or none *)
  drv_dev_create : option gbm_device;
  (** a create request: the allocation and its identity payload, or the
      error number the failing request leaves in [errno] *)
  drv_bo_create : option gbm_device → Z → Z → Z → Z → (gbm_bo * list Z) + Z;
  (** importing a payload: the allocation, or none *)
  drv_bo_import : option gbm_device → list Z → option gbm_bo;
  (** mapping a rectangle: the address, or an error code *)
  drv_bo_map : gbm_bo → Z → Z → Z → Z → Z → Z + Z;
  (** whether [new alloc_device_t()] yields an object *)
  drv_new : bool
}.

(** ** The monad of the facade: state, and the one trap of the source *)

Inductive fault := DivByZero.

Inductive outcome (A : Type) :=
| Returns (a : A) (s : state)
| Traps (f : fault).
Arguments Returns {A} a s.
Arguments Traps {A} f.

Definition M (A : Type) : Type := state → outcome A.

#[export] Instance M_ret : MRet M := λ A a s, Returns a s.
#[export] Instance M_bind : MBind M := λ A B f m s,
  match m s with
  | Returns a s' => f a s'
  | Traps e => Traps e
  end.

Definition get : M state := λ s, Returns s s.
Definition modify (f : state → state) : M unit := λ s, Returns () (f s).
Definition trap {A} (f : fault) : M A := λ _, Traps f.

(** The facade brackets its bodies with the module mutex.  The embedding is
    sequential: one thread calls while the mutex is free, and every path of
    every function releases it, so taking and releasing leave the state as
    it is. *)
Definition pthread_mutex_lock : M unit := mret ().
Definition pthread_mutex_unlock : M unit := mret ().

(** ** Collaborators from [gralloc_gbm.cpp] and the libraries

    [gralloc.cpp] calls into [gralloc_gbm.cpp] (device creation, buffer
    objects, the handle registry), libgbm and libcutils.  None of them is
    part of [gralloc.cpp]; the ones of this repository are modelled from
    the specification, sections 4.1 to 4.3 and 7. *)

(** Modelled from the spec: the error kinds of section 7 that the missing
    [gralloc_gbm.cpp] reports. The specification names them and says they
    reach the caller as negative codes; it fixes no number, so the number of
    the facade's own failures is used. *)
Definition AllocationError : Z := - EINVAL.
Definition RegistrationError : Z := - EINVAL.
Definition UnknownHandleError : Z := - EINVAL.
Definition NotLockedError : Z := - EINVAL.

(** Modelled from the spec: [gbm_dev_create] of the missing
    [gralloc_gbm.cpp] ("if device absent, creates it ... backend creation
    fails", 4.1). *)
Definition gbm_dev_create (drv : driver) : M (option gbm_device) :=
  match drv_dev_create drv with
  | Some d => modify (record (DevCreate d));; mret (Some d)
  | None => mret None
  end.

(** Modelled from the spec: [gbm_dev_destroy] of the missing
    [gralloc_gbm.cpp] ("destroys the backend device", 4.1). *)
Definition gbm_dev_destroy (d : option gbm_device) : M unit :=
  modify (record (DevDestroy d)).

(** libgbm: [gbm_device_get_fd] and [gbm_bo_get_stride] (a [uint32_t]). *)
Definition gbm_device_get_fd (d : gbm_device) : Z := dev_fd d.
Definition gbm_bo_get_stride (b : gbm_bo) : Z := Int.to_uint32 (gbm_bo_stride b).

(** Modelled from the spec: [gralloc_gbm_bo_from_handle] of the missing
    [gralloc_gbm.cpp] ("resolve handle to BO via registry lookup", 4.4). *)
Definition gralloc_gbm_bo_from_handle (h : buffer_handle_t) (s : state)
  : option gralloc_gbm_bo_t :=
  registry s !! h_payload h.

(** The buffer object is shared with the registry: a change made through
    the pointer [bo] is a change of the registry's entry. *)
Definition store_bo (o : gralloc_gbm_bo_t) : M unit :=
  modify (λ s, set_registry (<[h_payload (handle o) := o]> (registry s)) s).

(** Modelled from the spec: [gralloc_gbm_bo_create] of the missing
    [gralloc_gbm.cpp] ("validates format is one supported (an unsupported
    format yields zero bytes-per-pixel and MUST fail the operation rather
    than silently producing a zero-stride buffer ...), computes
    bytes-per-pixel from format, requests backend allocation ... returns
    a new BufferObject.  Fails with AllocationError (propagating backend
    error) on backend failure; does not partially construct an object on
    failure", 4.2; the new object is [Allocated(refcount=1)], 4.4).  A
    format without bytes-per-pixel is refused before the backend is asked,
    with the error number of AllocationError left in [errno]; whether a
    request for a supported format is granted is the backend's answer. *)
Definition gralloc_gbm_bo_create (drv : driver) (dev : option gbm_device)
    (w h format usage : Z) : M (option gralloc_gbm_bo_t) :=
  if decide (gralloc_gbm_get_bpp format = 0) then
    modify (set_errno EINVAL);; mret None
  else
    match drv_bo_create drv dev w h format usage with
    | inl (b, payload) =>
        let o := {| bo := b;
                    handle := {| h_format := format; h_usage := usage;
                                 h_width := w; h_height := h;
                                 h_payload := payload |};
                    refcount := 1; locked := false; map_data := None |} in
        modify (record (BoCreate b));;
        store_bo o;;
        mret (Some o)
    | inr e => modify (set_errno e);; mret None
    end.

(** Modelled from the spec: [gralloc_gbm_bo_get_handle] and
    [gralloc_gbm_bo_to_gbm_bo] of the missing [gralloc_gbm.cpp]
    ("export_handle ... pure, no side effects on the BO", 4.2). *)
Definition gralloc_gbm_bo_get_handle (o : gralloc_gbm_bo_t) : buffer_handle_t :=
  handle o.
Definition gralloc_gbm_bo_to_gbm_bo (o : gralloc_gbm_bo_t) : gbm_bo := bo o.

(** Modelled from the spec: [gbm_free] of the missing [gralloc_gbm.cpp]
    ("releases backend allocation, invalidates any cached mapping", 4.2;
    "destroys the BO directly (bypassing registry refcounting)", 4.4). *)
Definition gbm_free (o : gralloc_gbm_bo_t) : M unit :=
  modify (record (BoDestroy (bo o)));;
  modify (λ s, set_registry (delete (h_payload (handle o)) (registry s)) s).

(** libcutils [native_handle_close] and the C++ [delete]. *)
Definition native_handle_close (h : buffer_handle_t) : M unit :=
  modify (record (NativeHandleClose h)).
Definition delete_handle (h : buffer_handle_t) : M unit :=
  modify (record (HandleDelete h)).

(** Modelled from the spec: [gralloc_gbm_handle_register] of the missing
    [gralloc_gbm.cpp] ("looks up handle's backend-identity payload. If
    absent, imports it ... inserts with reference count 1. If present,
    increments reference count ... Fails with RegistrationError if backend
    import fails", 4.3). *)
Definition gralloc_gbm_handle_register (drv : driver) (h : buffer_handle_t)
    (dev : option gbm_device) : M Z :=
  s ← get;
  match registry s !! h_payload h with
  | Some o =>
      store_bo {| bo := bo o; handle := handle o; refcount := refcount o + 1;
                  locked := locked o; map_data := map_data o |};;
      mret 0
  | None =>
      match drv_bo_import drv dev (h_payload h) with
      | Some b =>
          modify (record (BoImport b));;
          store_bo {| bo := b; handle := h; refcount := 1;
                      locked := false; map_data := None |};;
          mret 0
      | None => mret RegistrationError
      end
  end.

(** Modelled from the spec: [gralloc_gbm_handle_unregister] of the missing
    [gralloc_gbm.cpp] ("decrements reference count for the resolved entry;
    on reaching zero, destroys the BufferObject and removes the entry.
    Unregistering an unknown handle fails with UnknownHandleError and is a
    no-op on registry state", 4.3). *)
Definition gralloc_gbm_handle_unregister (h : buffer_handle_t) : M Z :=
  s ← get;
  match registry s !! h_payload h with
  | Some o =>
      (if decide (refcount o - 1 = 0)
       then gbm_free o
       else store_bo {| bo := bo o; handle := handle o;
                        refcount := refcount o - 1;
                        locked := locked o; map_data := map_data o |});;
      mret 0
  | None => mret UnknownHandleError
  end.

(** Modelled from the spec: [gralloc_gbm_bo_lock] of the missing
    [gralloc_gbm.cpp] ("requests a CPU-visible mapping for the sub-rectangle
    from the backend (or reuses cached mapping if already present ...);
    returns a pointer", 4.2). The result is the error code and the pointer
    stored through [ptr], if any. *)
Definition gralloc_gbm_bo_lock (drv : driver) (o : gralloc_gbm_bo_t)
    (usage x y w h : Z) : M (Z * option Z) :=
  match map_data o with
  | Some p =>
      store_bo {| bo := bo o; handle := handle o; refcount := refcount o;
                  locked := true; map_data := Some p |};;
      mret (0, Some p)
  | None =>
      match drv_bo_map drv (bo o) usage x y w h with
      | inl p =>
          modify (record (BoMap (bo o)));;
          store_bo {| bo := bo o; handle := handle o; refcount := refcount o;
                      locked := true; map_data := Some p |};;
          mret (0, Some p)
      | inr e => mret (e, None)
      end
  end.

(** Modelled from the spec: [gralloc_gbm_bo_unlock] of the missing
    [gralloc_gbm.cpp] ("releases/flushes the mapping. Unlocking a BO that
    was never locked is a no-op error (NotLockedError) but must not corrupt
    state", 4.2). *)
Definition gralloc_gbm_bo_unlock (o : gralloc_gbm_bo_t) : M Z :=
  if locked o then
    match map_data o with
    | Some _ => modify (record (BoUnmap (bo o)))
    | None => mret ()
    end;;
    store_bo {| bo := bo o; handle := handle o; refcount := refcount o;
                locked := false; map_data := None |};;
    mret 0
  else mret NotLockedError.

(** ** The functions of [gralloc.cpp] *)

Section Gralloc.

(** The operation codes of [gralloc_drm.h], a header that is not part of
    [gralloc.cpp]. *)
Variables GRALLOC_MODULE_PERFORM_GET_DRM_FD GRALLOC_MODULE_PERFORM_GET_USAGE : Z.

(** [gbm_init] (gralloc.cpp:82) *)
Definition gbm_init (drv : driver) : M Z :=
  pthread_mutex_lock;;
  dmod ← get;
  err ← match gbm dmod with
        | None =>
            d ← gbm_dev_create drv;
            modify (set_gbm d);;
            mret (match d with None => - EINVAL | Some _ => 0 end)
        | Some _ => mret 0
        end;
  pthread_mutex_unlock;;
  mret err.

(** [gbm_mod_perform] (gralloc.cpp:97).  The result is the error code and
    the value stored through the [int *fd] argument, if any. *)
Definition gbm_mod_perform (drv : driver) (op : Z) : M (Z * option Z) :=
  let uop := Int.to_uint32 op in
  err ← gbm_init drv;
  if decide (err ≠ 0) then mret (err, None)
  else
    dmod ← get;
    if decide (uop = Int.to_uint32 GRALLOC_MODULE_PERFORM_GET_DRM_FD) then
      mret (0, gbm_device_get_fd <$> gbm dmod)
    else if decide (uop = Int.to_uint32 GRALLOC_MODULE_PERFORM_GET_USAGE) then
      mret (0, None)
    else mret (- EINVAL, None).

(** [gbm_mod_register_buffer] (gralloc.cpp:132) *)
Definition gbm_mod_register_buffer (drv : driver) (h : buffer_handle_t) : M Z :=
  err ← gbm_init drv;
  if decide (err ≠ 0) then mret err
  else
    pthread_mutex_lock;;
    dmod ← get;
    err ← gralloc_gbm_handle_register drv h (gbm dmod);
    pthread_mutex_unlock;;
    mret err.

(** [gbm_mod_unregister_buffer] (gralloc.cpp:149) *)
Definition gbm_mod_unregister_buffer (h : buffer_handle_t) : M Z :=
  pthread_mutex_lock;;
  err ← gralloc_gbm_handle_unregister h;
  pthread_mutex_unlock;;
  mret err.

(** [gbm_mod_lock] (gralloc.cpp:162).  The result is the error code and
    the pointer stored through [ptr], if any. *)
Definition gbm_mod_lock (drv : driver) (h : buffer_handle_t)
    (usage x y w hh : Z) : M (Z * option Z) :=
  pthread_mutex_lock;;
  dmod ← get;
  r ← match gralloc_gbm_bo_from_handle h dmod with
      | None => mret (- EINVAL, None)
      | Some o => gralloc_gbm_bo_lock drv o usage x y w hh
      end;
  pthread_mutex_unlock;;
  mret r.

(** [gbm_mod_unlock] (gralloc.cpp:185): [err] starts at 0 and the call of
    [gralloc_gbm_bo_unlock] is a statement whose value is dropped. *)
Definition gbm_mod_unlock (h : buffer_handle_t) : M Z :=
  pthread_mutex_lock;;
  dmod ← get;
  err ← match gralloc_gbm_bo_from_handle h dmod with
        | None => mret (- EINVAL)
        | Some o => gralloc_gbm_bo_unlock o;; mret 0
        end;
  pthread_mutex_unlock;;
  mret err.

(** [gbm_mod_close_gpu0] (gralloc.cpp:206): the device is destroyed and
    [dmod->gbm] keeps its value. *)
Definition gbm_mod_close_gpu0 : M Z :=
  dmod ← get;
  gbm_dev_destroy (gbm dmod);;
  mret 0.

(** [gbm_mod_free_gpu0] (gralloc.cpp:217) *)
Definition gbm_mod_free_gpu0 (h : buffer_handle_t) : M Z :=
  pthread_mutex_lock;;
  dmod ← get;
  err ← match gralloc_gbm_bo_from_handle h dmod with
        | None => mret (- EINVAL)
        | Some o =>
            gbm_free o;;
            native_handle_close h;;
            delete_handle h;;
            mret 0
        end;
  pthread_mutex_unlock;;
  mret err.

(** The quotient of [gbm_mod_alloc_gpu0]: a [uint32_t] divided by an [int].
    The [int] is converted to [uint32_t], the division is unsigned and
    traps on a zero divisor, and the quotient is stored into an [int]. *)
Definition stride_in_pixels (byte_stride bpp : Z) : M Z :=
  if decide (Int.to_uint32 bpp = 0) then trap DivByZero
  else mret (Int.to_int32 (byte_stride / Int.to_uint32 bpp)).

(** [gbm_mod_alloc_gpu0] (gralloc.cpp:240).  The result is the error code
    and the values stored through [handle] and [stride], if any. *)
Definition gbm_mod_alloc_gpu0 (drv : driver) (w h format usage : Z)
  : M (Z * option buffer_handle_t * option Z) :=
  pthread_mutex_lock;;
  dmod ← get;
  o ← gralloc_gbm_bo_create drv (gbm dmod) w h format usage;
  r ← match o with
      | None =>
          s ← get;
          mret (Int.to_int32 (- errno s), None, None)
      | Some o =>
          let handle := gralloc_gbm_bo_get_handle o in
          stride ← stride_in_pixels
                     (gbm_bo_get_stride (gralloc_gbm_bo_to_gbm_bo o))
                     (gralloc_gbm_get_bpp format);
          mret (0, Some handle, Some stride)
      end;
  pthread_mutex_unlock;;
  mret r.

(** The function pointers an [alloc_device_t] is filled with. *)
Inductive method := Gbm_mod_close_gpu0 | Gbm_mod_alloc_gpu0 | Gbm_mod_free_gpu0.

(** [alloc_device_t] with its [common] part ([hw_device_t]); [common_module]
    tells whether the device points back at this module. *)
Record alloc_device_t := {
  common_tag : Z;
  common_version : Z;
  common_module : bool;
  common_close : method;
  alloc : method;
  free : method
}.

(** [gbm_mod_open_gpu0] (gralloc.cpp:267).  The result is the error code
    and the device stored through [dev], if any. *)
Definition gbm_mod_open_gpu0 (drv : driver) : M (Z * option alloc_device_t) :=
  err ← gbm_init drv;
  if decide (err ≠ 0) then mret (err, None)
  else if negb (drv_new drv) then mret (- EINVAL, None)
  else
    mret (0, Some {| common_tag := HARDWARE_DEVICE_TAG;
                     common_version := 0;
                     common_module := true;
                     common_close := Gbm_mod_close_gpu0;
                     alloc := Gbm_mod_alloc_gpu0;
                     free := Gbm_mod_free_gpu0 |}).

(** [gbm_mod_open] (gralloc.cpp:293) *)
Definition gbm_mod_open (drv : driver) (name : string)
  : M (Z * option alloc_device_t) :=
  if decide (name = GRALLOC_HARDWARE_GPU0) then gbm_mod_open_gpu0 drv
  else mret (- EINVAL, None).

End Gralloc.

(** The endpoint [gbm_mod_open_gpu0] builds. *)
Definition gpu0_device : alloc_device_t :=
  {| common_tag := HARDWARE_DEVICE_TAG;
     common_version := 0;
     common_module := true;
     common_close := Gbm_mod_close_gpu0;
     alloc := Gbm_mod_alloc_gpu0;
     free := Gbm_mod_free_gpu0 |}.

(** ** Requests and reachable states *)

(** One call into the module table or the allocation endpoint. *)
Inductive request :=
| Perform (op : Z)
| RegisterBuffer (h : buffer_handle_t)
| UnregisterBuffer (h : buffer_handle_t)
| Lock (h : buffer_handle_t) (usage x y w hh : Z)
| Unlock (h : buffer_handle_t)
| Open (name : string)
| Close
| Alloc (w h format usage : Z)
| Free (h : buffer_handle_t).

Section Reachable.

Variables GET_DRM_FD GET_USAGE : Z.

(** The effect of a request on the state, its result put aside. *)
Definition exec (drv : driver) (r : request) : M unit :=
  match r with
  | Perform op => gbm_mod_perform GET_DRM_FD GET_USAGE drv op;; mret ()
  | RegisterBuffer h => gbm_mod_register_buffer drv h;; mret ()
  | UnregisterBuffer h => gbm_mod_unregister_buffer h;; mret ()
  | Lock h usage x y w hh => gbm_mod_lock drv h usage x y w hh;; mret ()
  | Unlock h => gbm_mod_unlock h;; mret ()
  | Open name => gbm_mod_open drv name;; mret ()
  | Close => gbm_mod_close_gpu0;; mret ()
  | Alloc w h format usage => gbm_mod_alloc_gpu0 drv w h format usage;; mret ()
  | Free h => gbm_mod_free_gpu0 h;; mret ()
  end.

(** The states a process can be in: the module as loaded, followed by
    any requests under any answers of the driver. *)
Inductive reachable : state → Prop :=
| reachable_loaded : reachable HAL_MODULE_INFO_SYM
| reachable_request s drv r s' :
    reachable s → exec drv r s = Returns () s' → reachable s'.

End Reachable.

(** Every entry of the registry has a positive reference count. *)
Definition refcounts_positive (s : state) : Prop :=
  ∀ k o, registry s !! k = Some o → 0 < refcount o.

(** The number of devices created so far. *)
Definition is_dev_create (c : call) : bool :=
  match c with DevCreate _ => true | _ => false end.
Definition devices_created (s : state) : nat :=
  length (filter (λ c, is_dev_create c = true) (calls s)).

(** The device is created at most once, and not at all while [dmod->gbm]
    is null. *)
Definition device_single (s : state) : Prop :=
  (devices_created s ≤ 1)%nat ∧ (gbm s = None → devices_created s = 0%nat).

(** The two invariants together. *)
Definition invariant (s : state) : Prop :=
  refcounts_positive s ∧ device_single s.

(** ** Sequences of requests *)

Section Run.

Variables GET_DRM_FD GET_USAGE : Z.

(** Requests served one after the other, each under its own answers of
    the driver; a trap ends the sequence. *)
Fixpoint run (l : list (driver * request)) : M unit :=
  match l with
  | [] => mret ()
  | (drv, r) :: l' => exec GET_DRM_FD GET_USAGE drv r;; run l'
  end.

End Run.

(** The requests whose functions call [gbm_init]: [perform],
    [registerBuffer], and [open] under the name of the allocation device. *)
Definition initialises (r : request) : bool :=
  match r with
  | Perform _ | RegisterBuffer _ => true
  | Open name => bool_decide (name = GRALLOC_HARDWARE_GPU0)
  | _ => false
  end.

(** The device pointer and the count of created devices are the same in
    both states. *)
Definition same_device (s s' : state) : Prop :=
  gbm s' = gbm s ∧ devices_created s' = devices_created s.

(** ** Running the monad in proofs *)

Ltac unfold_facade :=
  unfold gbm_mod_perform, gbm_mod_register_buffer, gbm_mod_unregister_buffer,
    gbm_mod_lock, gbm_mod_unlock, gbm_mod_close_gpu0, gbm_mod_free_gpu0,
    gbm_mod_alloc_gpu0, gbm_mod_open, gbm_mod_open_gpu0, gbm_init,
    stride_in_pixels, gralloc_gbm_bo_create, gralloc_gbm_handle_register,
    gralloc_gbm_handle_unregister, gralloc_gbm_bo_lock, gralloc_gbm_bo_unlock,
    gralloc_gbm_bo_from_handle, gbm_free, native_handle_close, delete_handle,
    gbm_dev_create, gbm_dev_destroy, store_bo,
    pthread_mutex_lock, pthread_mutex_unlock.

Ltac unfold_monad :=
  unfold mbind, M_bind, mret, M_ret, get, modify, trap.

Ltac run := unfold_facade; unfold_monad; cbn.

Ltac run_in H :=
  unfold gbm_mod_perform, gbm_mod_register_buffer, gbm_mod_unregister_buffer,
    gbm_mod_lock, gbm_mod_unlock, gbm_mod_close_gpu0, gbm_mod_free_gpu0,
    gbm_mod_alloc_gpu0, gbm_mod_open, gbm_mod_open_gpu0, gbm_init,
    stride_in_pixels, gralloc_gbm_bo_create, gralloc_gbm_handle_register,
    gralloc_gbm_handle_unregister, gralloc_gbm_bo_lock, gralloc_gbm_bo_unlock,
    gralloc_gbm_bo_from_handle, gbm_free, native_handle_close, delete_handle,
    gbm_dev_create, gbm_dev_destroy, store_bo,
    pthread_mutex_lock, pthread_mutex_unlock in H;
  unfold mbind, M_bind, mret, M_ret, get, modify, trap in H;
  cbn in H.

(** ** Concrete drivers, handles and states

    Used to run the facade on explicit inputs. *)

Module Fixture.

Definition device : gbm_device := {| dev_fd := 7 |}.

(** a linear allocation with rows of 256 bytes *)
Definition linear_bo : gbm_bo := {| gbm_bo_id := 1; gbm_bo_stride := 256 |}.

Definition payload : list Z := [3; 4].


(** [ENOMEM] *)
Definition ENOMEM : Z := 12.

(** a driver that grants every request *)
Definition granting : driver :=
  {| drv_dev_create := Some device;
     drv_bo_create := λ _ _ _ _ _, inl (linear_bo, payload);
     drv_bo_import := λ _ _, Some linear_bo;
     drv_bo_map := λ _ _ _ _ _ _, inl 4096;
     drv_new := true |}.

(** a driver that refuses every request *)
Definition refusing : driver :=
  {| drv_dev_create := None;
     drv_bo_create := λ _ _ _ _ _, inr ENOMEM;
     drv_bo_import := λ _ _, None;
     drv_bo_map := λ _ _ _ _ _ _, inr (- EINVAL);
     drv_new := true |}.

(** a handle received from another process *)
Definition h0 : buffer_handle_t :=
  {| h_format := HAL_PIXEL_FORMAT_RGBA_8888; h_usage := 0;
     h_width := 64; h_height := 64; h_payload := payload |}.

(** the buffer object [h0] is imported as *)
Definition o0 : gralloc_gbm_bo_t :=
  {| bo := linear_bo; handle := h0; refcount := 1;
     locked := false; map_data := None |}.

(** the state after [h0] has been registered once *)
Definition registered : state :=
  {| gbm := Some device; errno := 0;
     registry := <[payload := o0]> ∅;
     calls := [BoImport linear_bo; DevCreate device] |}.

(** the state after the device has been created *)
Definition initialised : state :=
  {| gbm := Some device; errno := 0; registry := ∅;
     calls := [DevCreate device] |}.

(** operation codes for [perform] *)
Definition GET_DRM_FD : Z := 1073741826. (* 0x40000002 *)
Definition GET_USAGE : Z := 1073741827.

End Fixture.

(** Further concrete inputs, at the edges of the integer types. *)

Module Edge.

(** an allocation with rows of 1000 bytes *)
Definition odd_bo : gbm_bo := {| gbm_bo_id := 5; gbm_bo_stride := 1000 |}.

(** an allocation whose rows are 2 GiB apart *)
Definition huge_bo : gbm_bo := {| gbm_bo_id := 6; gbm_bo_stride := 2 ^ 31 |}.

(** drivers that grant every request with these allocations *)
Definition granting_odd : driver :=
  {| drv_dev_create := Some Fixture.device;
     drv_bo_create := λ _ _ _ _ _, inl (odd_bo, Fixture.payload);
     drv_bo_import := λ _ _, Some odd_bo;
     drv_bo_map := λ _ _ _ _ _ _, inl 4096;
     drv_new := true |}.

Definition granting_huge : driver :=
  {| drv_dev_create := Some Fixture.device;
     drv_bo_create := λ _ _ _ _ _, inl (huge_bo, Fixture.payload);
     drv_bo_import := λ _ _, Some huge_bo;
     drv_bo_map := λ _ _ _ _ _ _, inl 4096;
     drv_new := true |}.

(** a driver that opens the device and refuses every other request *)
Definition device_only : driver :=
  {| drv_dev_create := Some Fixture.device;
     drv_bo_create := λ _ _ _ _ _, inr Fixture.ENOMEM;
     drv_bo_import := λ _ _, None;
     drv_bo_map := λ _ _ _ _ _ _, inr (- EINVAL);
     drv_new := true |}.

(** a driver whose refusals leave [errno] at 0 *)
Definition silent : driver :=
  {| drv_dev_create := None;
     drv_bo_create := λ _ _ _ _ _, inr 0;
     drv_bo_import := λ _ _, None;
     drv_bo_map := λ _ _ _ _ _ _, inr (- EINVAL);
     drv_new := true |}.

(** an operation code above [INT_MAX], and the [int] with its bit pattern *)
Definition high_code : Z := 2147483650. (* 0x80000002 *)
Definition high_code_as_int : Z := -2147483646.

End Edge.

(** ** Machine integers: facts *)

Lemma to_int32_id z : Int.INT_MIN ≤ z ≤ Int.INT_MAX → Int.to_int32 z = z.
Proof.
  unfold Int.to_int32, Int.INT_MIN, Int.INT_MAX. intros Hz.
  rewrite Z.mod_small; lia.
Qed.

Lemma to_uint32_id z : 0 ≤ z < 2 ^ 32 → Int.to_uint32 z = z.
Proof. unfold Int.to_uint32. intros Hz. apply Z.mod_small. lia. Qed.

Lemma to_uint32_range z : 0 ≤ Int.to_uint32 z < 2 ^ 32.
Proof. unfold Int.to_uint32. apply Z.mod_pos_bound. lia. Qed.

(** ** Bytes per pixel *)

Lemma bpp_range format : 0 ≤ gralloc_gbm_get_bpp format ≤ 4.
Proof. unfold gralloc_gbm_get_bpp. repeat case_decide; lia. Qed.

Lemma bpp_to_uint32 format :
  Int.to_uint32 (gralloc_gbm_get_bpp format) = gralloc_gbm_get_bpp format.
Proof. apply to_uint32_id. pose proof (bpp_range format). lia. Qed.

(** ** Allocation *)

Lemma alloc_unsupported drv w h format usage s :
  gralloc_gbm_get_bpp format = 0 →
  gbm_mod_alloc_gpu0 drv w h format usage s =
    Returns (AllocationError, None, None) (set_errno EINVAL s).
Proof. intros Hbpp. run. case_decide; [reflexivity | contradiction]. Qed.

Lemma alloc_created drv w h format usage s b payload :
  drv_bo_create drv (gbm s) w h format usage = inl (b, payload) →
  gbm_mod_alloc_gpu0 drv w h format usage s =
    let o := {| bo := b;
                handle := {| h_format := format; h_usage := usage;
                             h_width := w; h_height := h;
                             h_payload := payload |};
                refcount := 1; locked := false; map_data := None |} in
    if decide (gralloc_gbm_get_bpp format = 0) then
      Returns (AllocationError, None, None) (set_errno EINVAL s)
    else Returns
           (0, Some (handle o),
            Some (Int.to_int32 (gbm_bo_get_stride b / gralloc_gbm_get_bpp format)))
           (set_registry (<[payload := o]> (registry s)) (record (BoCreate b) s)).
Proof.
  intros Hc. cbn zeta. case_decide as Hbpp.
  - exact (alloc_unsupported _ _ _ _ _ _ Hbpp).
  - run. case_decide; [contradiction |]. rewrite Hc. cbn.
    rewrite bpp_to_uint32. case_decide; [contradiction | reflexivity].
Qed.

Lemma alloc_refused drv w h format usage s e :
  drv_bo_create drv (gbm s) w h format usage = inr e →
  gbm_mod_alloc_gpu0 drv w h format usage s =
    if decide (gralloc_gbm_get_bpp format = 0) then
      Returns (AllocationError, None, None) (set_errno EINVAL s)
    else Returns (Int.to_int32 (- e), None, None) (set_errno e s).
Proof.
  intros Hc. case_decide as Hbpp.
  - exact (alloc_unsupported _ _ _ _ _ _ Hbpp).
  - run. case_decide; [contradiction |]. rewrite Hc. reflexivity.
Qed.




(** C4.  For every successful allocation the stride handed back is the
    backend's byte stride divided by the bytes-per-pixel of the format
    (a stride in pixels), the quotient being a value of the [int] it is
    stored in, which it always is for formats of two or more bytes per
    pixel; a 64x64 RGBA_8888 buffer with rows of 256 bytes gets stride 64. *)
Theorem alloc_stride_in_pixels :
  (∀ drv w h format usage s hd st s',
     gbm_mod_alloc_gpu0 drv w h format usage s = Returns (0, Some hd, Some st) s' →
     ∃ b payload,
       drv_bo_create drv (gbm s) w h format usage = inl (b, payload)
       ∧ 0 < gralloc_gbm_get_bpp format
       ∧ (gbm_bo_get_stride b / gralloc_gbm_get_bpp format ≤ Int.INT_MAX
          ∨ 2 ≤ gralloc_gbm_get_bpp format →
          st = gbm_bo_get_stride b / gralloc_gbm_get_bpp format))
  ∧ (∀ drv usage s b payload,
       drv_bo_create drv (gbm s) 64 64 HAL_PIXEL_FORMAT_RGBA_8888 usage
         = inl (b, payload) →
       gbm_bo_get_stride b = 256 →
       ∃ hd s',
         gbm_mod_alloc_gpu0 drv 64 64 HAL_PIXEL_FORMAT_RGBA_8888 usage s
           = Returns (0, Some hd, Some 64) s').
Proof.
  split.
  - intros drv w h format usage s hd st s' Hrun.
    destruct (drv_bo_create drv (gbm s) w h format usage) as [[b payload] | e] eqn:Hc.
    + rewrite (alloc_created _ _ _ _ _ _ _ _ Hc) in Hrun. cbn in Hrun.
      case_decide as Hbpp; [discriminate |].
      inversion Hrun; subst; clear Hrun.
      exists b, payload. pose proof (bpp_range format) as Hr.
      split; [reflexivity |]. split; [lia |].
      intros Hfit. apply to_int32_id.
      pose proof (to_uint32_range (gbm_bo_stride b)) as Hs.
      unfold gbm_bo_get_stride in *. unfold Int.INT_MIN, Int.INT_MAX in *.
      assert (0 ≤ Int.to_uint32 (gbm_bo_stride b) / gralloc_gbm_get_bpp format)
        by (apply Z.div_pos; lia).
      split; [lia |].
      destruct Hfit as [Hfit | Hfit]; [exact Hfit |].
      assert (Int.to_uint32 (gbm_bo_stride b) / gralloc_gbm_get_bpp format
              < 2 ^ 31); [| lia].
      apply Z.div_lt_upper_bound; lia.
    + rewrite (alloc_refused _ _ _ _ _ _ _ Hc) in Hrun.
      case_decide; discriminate.
  - intros drv usage s b payload Hc Hs.
    rewrite (alloc_created _ _ _ _ _ _ _ _ Hc). cbn. rewrite Hs.
    eexists _, _. reflexivity.
Qed.

Lemma alloc_stride_in_pixels_witness :
  ∃ hd s',
    gbm_mod_alloc_gpu0 Fixture.granting 64 64 HAL_PIXEL_FORMAT_RGB_565 0
      Fixture.initialised = Returns (0, Some hd, Some 128) s'
    ∧ 128 = gbm_bo_get_stride Fixture.linear_bo
              / gralloc_gbm_get_bpp HAL_PIXEL_FORMAT_RGB_565
    ∧ gbm_mod_alloc_gpu0 Fixture.granting 64 64 HAL_PIXEL_FORMAT_RGBA_8888 0
        Fixture.initialised
      = Returns (0, Some Fixture.h0, Some 64)
          (set_registry
             (<[Fixture.payload := Fixture.o0]> (registry Fixture.initialised))
             (record (BoCreate Fixture.linear_bo) Fixture.initialised)).
Proof.
  destruct alloc_stride_in_pixels as [Hgen Hscn].
  eexists _, _. split; [reflexivity |]. split.
  - destruct (Hgen Fixture.granting 64 64 HAL_PIXEL_FORMAT_RGB_565 0
                Fixture.initialised _ 128 _ eq_refl)
      as (b & p & Hc & _ & Hst).
    inversion Hc; subst. apply Hst. left. vm_compute. discriminate.
  - destruct (Hscn Fixture.granting 0 Fixture.initialised
                Fixture.linear_bo Fixture.payload eq_refl eq_refl)
      as (hd & s' & Hrun).
    reflexivity.
Defined.

(** The allocate path, as a function of what [gralloc_gbm_bo_create]
    returns. *)
Lemma alloc_is_create_call drv w h format usage s :
  gbm_mod_alloc_gpu0 drv w h format usage s =
    match gralloc_gbm_bo_create drv (gbm s) w h format usage s with
    | Returns None s1 => Returns (Int.to_int32 (- errno s1), None, None) s1
    | Returns (Some o) s1 =>
        if decide (Int.to_uint32 (gralloc_gbm_get_bpp format) = 0)
        then Traps DivByZero
        else Returns
               (0, Some (handle o),
                Some (Int.to_int32
                        (gbm_bo_get_stride (bo o)
                         / Int.to_uint32 (gralloc_gbm_get_bpp format)))) s1
    | Traps f => Traps f
    end.
Proof.
  unfold gbm_mod_alloc_gpu0, stride_in_pixels, pthread_mutex_lock,
    pthread_mutex_unlock, gralloc_gbm_bo_get_handle, gralloc_gbm_bo_to_gbm_bo.
  unfold_monad.
  destruct (gralloc_gbm_bo_create drv (gbm s) w h format usage s)
    as [[o |] s1 |]; [| reflexivity | reflexivity].
  case_decide; reflexivity.
Qed.

(** A create request that fails constructs nothing. *)
Lemma create_failure_frame drv dev w h format usage s s1 :
  gralloc_gbm_bo_create drv dev w h format usage s = Returns None s1 →
  registry s1 = registry s ∧ calls s1 = calls s ∧ gbm s1 = gbm s.
Proof.
  intros Hc. run_in Hc.
  destruct (decide (gralloc_gbm_get_bpp format = 0)); cbn in Hc.
  - inversion Hc; subst. repeat split.
  - destruct (drv_bo_create drv dev w h format usage) as [[b payload] | e];
      cbn in Hc; [discriminate |].
    inversion Hc; subst. repeat split.
Qed.

(** C5, as the code has it.  When buffer creation fails during allocate,
    the operation returns the negated [errno] that the failed creation
    left: a negative code exactly when that error number is positive.  It
    stores neither a handle nor a stride, does nothing after the failed
    creation, and no buffer object is constructed: the registry and the
    backend are as before. *)
Theorem alloc_backend_failure drv w h format usage s s1 :
  gralloc_gbm_bo_create drv (gbm s) w h format usage s = Returns None s1 →
  Int.INT_MIN < errno s1 ≤ Int.INT_MAX →
  gbm_mod_alloc_gpu0 drv w h format usage s
  = Returns (- errno s1, None, None) s1
  ∧ (- errno s1 < 0 ↔ 0 < errno s1)
  ∧ registry s1 = registry s
  ∧ calls s1 = calls s
  ∧ gbm s1 = gbm s.
Proof.
  intros Hc He. rewrite alloc_is_create_call, Hc.
  rewrite to_int32_id by (unfold Int.INT_MIN, Int.INT_MAX in *; lia).
  split; [reflexivity |]. split; [lia |].
  exact (create_failure_frame _ _ _ _ _ _ _ _ Hc).
Qed.

Lemma alloc_backend_failure_witness :
  gralloc_gbm_bo_create Fixture.refusing (gbm Fixture.initialised)
    64 64 HAL_PIXEL_FORMAT_RGBA_8888 0 Fixture.initialised
  = Returns None (set_errno Fixture.ENOMEM Fixture.initialised)
  ∧ gbm_mod_alloc_gpu0 Fixture.refusing 64 64 HAL_PIXEL_FORMAT_RGBA_8888 0
      Fixture.initialised
    = Returns (- Fixture.ENOMEM, None, None)
        (set_errno Fixture.ENOMEM Fixture.initialised)
  ∧ - Fixture.ENOMEM < 0.
Proof.
  split; [reflexivity |].
  destruct (alloc_backend_failure Fixture.refusing 64 64
              HAL_PIXEL_FORMAT_RGBA_8888 0 Fixture.initialised
              (set_errno Fixture.ENOMEM Fixture.initialised) eq_refl)
    as (Hrun & Hsign & _).
  - vm_compute. split; [reflexivity | discriminate].
  - split; [exact Hrun |]. apply Hsign. reflexivity.
Defined.

(** C5, as the specification states it, fails: a creation that fails and
    leaves [errno] at 0 makes the allocate operation return 0, which is no
    negative code. *)
Lemma alloc_backend_failure_counterexample :
  gralloc_gbm_bo_create Edge.silent (gbm Fixture.initialised)
    64 64 HAL_PIXEL_FORMAT_RGBA_8888 0 Fixture.initialised
  = Returns None (set_errno 0 Fixture.initialised)
  ∧ gbm_mod_alloc_gpu0 Edge.silent 64 64 HAL_PIXEL_FORMAT_RGBA_8888 0
      Fixture.initialised
    = Returns (0, None, None) (set_errno 0 Fixture.initialised)
  ∧ ¬ ∃ r s',
        gbm_mod_alloc_gpu0 Edge.silent 64 64 HAL_PIXEL_FORMAT_RGBA_8888 0
          Fixture.initialised = Returns (r, None, None) s'
        ∧ r < 0.
Proof.
  split; [reflexivity |]. split; [reflexivity |].
  intros (r & s' & Hrun & Hneg).
  vm_compute in Hrun. inversion Hrun; subst. discriminate Hneg.
Qed.

(** ** Lock, unlock and free *)

(** Lock either finds no buffer object, or locks it. *)
Lemma lock_is_bo_call drv h usage x y w hh s :
  gbm_mod_lock drv h usage x y w hh s =
    match gralloc_gbm_bo_from_handle h s with
    | None => Returns (- EINVAL, None) s
    | Some o => gralloc_gbm_bo_lock drv o usage x y w hh s
    end.
Proof.
  unfold gbm_mod_lock, pthread_mutex_lock, pthread_mutex_unlock.
  unfold_monad. destruct (gralloc_gbm_bo_from_handle h s) as [o |];
    [| reflexivity].
  destruct (gralloc_gbm_bo_lock drv o usage x y w hh s); reflexivity.
Qed.

(** Unlock either finds no buffer object, or unlocks it and returns 0. *)
Lemma unlock_is_bo_call h s :
  gbm_mod_unlock h s =
    match gralloc_gbm_bo_from_handle h s with
    | None => Returns (- EINVAL) s
    | Some o =>
        match gralloc_gbm_bo_unlock o s with
        | Returns _ s' => Returns 0 s'
        | Traps e => Traps e
        end
    end.
Proof.
  unfold gbm_mod_unlock, pthread_mutex_lock, pthread_mutex_unlock.
  unfold_monad. destruct (gralloc_gbm_bo_from_handle h s) as [o |];
    [| reflexivity].
  destruct (gralloc_gbm_bo_unlock o s); reflexivity.
Qed.

Lemma unlock_resolved h s o :
  gralloc_gbm_bo_from_handle h s = Some o →
  ∃ s', gbm_mod_unlock h s = Returns 0 s'.
Proof.
  intros Ho. rewrite unlock_is_bo_call, Ho.
  destruct (gralloc_gbm_bo_unlock o s) as [r s' |] eqn:Hu; [eauto |].
  run_in Hu. destruct (locked o); [destruct (map_data o) |]; discriminate.
Qed.

(** C2, as the code has it.  For every buffer that is registered in the
    process, [gbm_mod_unlock] returns 0: what [gralloc_gbm_bo_unlock]
    reports is dropped, so no NotLockedError reaches the caller.  When the
    buffer is not locked, the buffer and the registry are left as they
    were. *)
Theorem unlock_not_locked h s o :
  gralloc_gbm_bo_from_handle h s = Some o →
  (∃ s', gbm_mod_unlock h s = Returns 0 s')
  ∧ (locked o = false → gbm_mod_unlock h s = Returns 0 s).
Proof.
  intros Ho. split; [exact (unlock_resolved h s o Ho) |].
  intros Hl. rewrite unlock_is_bo_call, Ho.
  unfold gralloc_gbm_bo_unlock. rewrite Hl. reflexivity.
Qed.

Lemma unlock_not_locked_witness :
  gralloc_gbm_bo_from_handle Fixture.h0 Fixture.registered = Some Fixture.o0
  ∧ locked Fixture.o0 = false
  ∧ gbm_mod_unlock Fixture.h0 Fixture.registered = Returns 0 Fixture.registered.
Proof.
  split; [reflexivity |]. split; [reflexivity |].
  apply (unlock_not_locked Fixture.h0 Fixture.registered Fixture.o0);
    reflexivity.
Defined.

(** C2, as the specification states it, fails: a registered buffer that
    was never locked is unlocked with result 0, not with NotLockedError,
    although the buffer object's own unlock reports NotLockedError. *)
Lemma unlock_not_locked_counterexample :
  gralloc_gbm_bo_from_handle Fixture.h0 Fixture.registered = Some Fixture.o0
  ∧ locked Fixture.o0 = false
  ∧ gralloc_gbm_bo_unlock Fixture.o0 Fixture.registered
    = Returns NotLockedError Fixture.registered
  ∧ gbm_mod_unlock Fixture.h0 Fixture.registered = Returns 0 Fixture.registered
  ∧ ¬ ∃ s', gbm_mod_unlock Fixture.h0 Fixture.registered
            = Returns NotLockedError s'.
Proof.
  split; [reflexivity |]. split; [reflexivity |]. split; [reflexivity |].
  split; [reflexivity |].
  intros [s' Hrun]. vm_compute in Hrun. discriminate Hrun.
Qed.

(** C6.  For every handle from which no live buffer object resolves, lock
    and unlock both fail with [- EINVAL], lock stores no pointer, and the
    state is left as it was. *)
Theorem lock_unlock_unresolved drv h usage x y w hh s :
  gralloc_gbm_bo_from_handle h s = None →
  gbm_mod_lock drv h usage x y w hh s = Returns (- EINVAL, None) s
  ∧ gbm_mod_unlock h s = Returns (- EINVAL) s.
Proof.
  intros Ho. rewrite lock_is_bo_call, unlock_is_bo_call, Ho.
  split; reflexivity.
Qed.

Lemma lock_unlock_unresolved_witness :
  gralloc_gbm_bo_from_handle Fixture.h0 Fixture.initialised = None
  ∧ gbm_mod_lock Fixture.granting Fixture.h0 3 0 0 64 64 Fixture.initialised
    = Returns (- EINVAL, None) Fixture.initialised
  ∧ gbm_mod_unlock Fixture.h0 Fixture.initialised
    = Returns (- EINVAL) Fixture.initialised.
Proof.
  split; [reflexivity |].
  apply (lock_unlock_unresolved Fixture.granting Fixture.h0 3 0 0 64 64
           Fixture.initialised).
  reflexivity.
Defined.

(** Free either finds no buffer object, or performs its three teardown
    steps. *)
Lemma free_is_bo_call h s :
  gbm_mod_free_gpu0 h s =
    match gralloc_gbm_bo_from_handle h s with
    | None => Returns (- EINVAL) s
    | Some o =>
        Returns 0
          (record (HandleDelete h)
             (record (NativeHandleClose h)
                (set_registry (delete (h_payload (handle o)) (registry s))
                   (record (BoDestroy (bo o)) s))))
    end.
Proof.
  unfold gbm_mod_free_gpu0. unfold_monad.
  unfold pthread_mutex_lock, pthread_mutex_unlock. unfold_monad.
  destruct (gralloc_gbm_bo_from_handle h s); reflexivity.
Qed.

(** C10.  For every handle from which no live buffer object resolves, free
    returns [- EINVAL] and tears nothing down: the state, with its record
    of backend releases, handle closes and handle deletions, is left as it
    was. *)
Theorem free_unresolved h s :
  gralloc_gbm_bo_from_handle h s = None →
  gbm_mod_free_gpu0 h s = Returns (- EINVAL) s.
Proof.
  intros Ho. rewrite free_is_bo_call, Ho. reflexivity.
Qed.

Lemma free_unresolved_witness :
  gralloc_gbm_bo_from_handle Fixture.h0 Fixture.initialised = None
  ∧ gbm_mod_free_gpu0 Fixture.h0 Fixture.initialised
    = Returns (- EINVAL) Fixture.initialised.
Proof.
  split; [reflexivity |].
  apply (free_unresolved Fixture.h0 Fixture.initialised). reflexivity.
Defined.

(** ** Device initialisation *)

Lemma set_gbm_same s : set_gbm (gbm s) s = s.
Proof. destruct s; reflexivity. Qed.

Lemma gbm_init_present drv s d :
  gbm s = Some d → gbm_init drv s = Returns 0 s.
Proof. intros Hg. run. rewrite Hg. reflexivity. Qed.

Lemma gbm_init_failed drv s :
  gbm s = None → drv_dev_create drv = None →
  gbm_init drv s = Returns (- EINVAL) s.
Proof.
  intros Hg Hd. run. rewrite Hg, Hd. cbn.
  rewrite <- Hg at 1. rewrite set_gbm_same. reflexivity.
Qed.

Lemma gbm_init_created drv s d :
  gbm s = None → drv_dev_create drv = Some d →
  gbm_init drv s = Returns 0 (set_gbm (Some d) (record (DevCreate d) s)).
Proof. intros Hg Hd. run. rewrite Hg, Hd. reflexivity. Qed.

(** [gbm_init] always returns, with 0 and a device, or with [- EINVAL] and
    the state it started from. *)
Lemma gbm_init_cases drv s :
  (∃ s', gbm_init drv s = Returns 0 s' ∧ is_Some (gbm s'))
  ∨ (gbm_init drv s = Returns (- EINVAL) s ∧ gbm s = None).
Proof.
  destruct (gbm s) as [d |] eqn:Hg.
  - left. exists s. rewrite (gbm_init_present _ _ _ Hg), Hg. eauto.
  - destruct (drv_dev_create drv) as [d |] eqn:Hd.
    + left. eexists. rewrite (gbm_init_created _ _ _ Hg Hd). cbn. eauto.
    + right. rewrite (gbm_init_failed _ _ Hg Hd). eauto.
Qed.

(** What the callers of [gbm_init] do with its result. *)
Lemma register_after_init drv h s err s' :
  gbm_init drv s = Returns err s' →
  gbm_mod_register_buffer drv h s =
    if decide (err ≠ 0) then Returns err s'
    else gralloc_gbm_handle_register drv h (gbm s') s'.
Proof.
  intros Hi. unfold gbm_mod_register_buffer. unfold mbind at 1, M_bind at 1.
  rewrite Hi. case_decide; [reflexivity |].
  unfold pthread_mutex_lock, pthread_mutex_unlock. unfold_monad.
  destruct (gralloc_gbm_handle_register drv h (gbm s') s'); reflexivity.
Qed.

Lemma open_gpu0_after_init drv s err s' :
  gbm_init drv s = Returns err s' →
  gbm_mod_open_gpu0 drv s =
    if decide (err ≠ 0) then Returns (err, None) s'
    else if negb (drv_new drv) then Returns (- EINVAL, None) s'
    else Returns
           (0, Some {| common_tag := HARDWARE_DEVICE_TAG;
                       common_version := 0;
                       common_module := true;
                       common_close := Gbm_mod_close_gpu0;
                       alloc := Gbm_mod_alloc_gpu0;
                       free := Gbm_mod_free_gpu0 |}) s'.
Proof.
  intros Hi. unfold gbm_mod_open_gpu0. unfold mbind at 1, M_bind at 1.
  rewrite Hi. case_decide; [reflexivity |].
  destruct (drv_new drv); reflexivity.
Qed.

Section Perform.

Variables GET_DRM_FD GET_USAGE : Z.

(** The two codes label cases of one [switch] over a [uint32_t], so
    their 32-bit values differ. *)
Hypothesis perform_codes_differ :
  Int.to_uint32 GET_DRM_FD ≠ Int.to_uint32 GET_USAGE.

Lemma perform_after_init drv op s err s' :
  gbm_init drv s = Returns err s' →
  gbm_mod_perform GET_DRM_FD GET_USAGE drv op s =
    if decide (err ≠ 0) then Returns (err, None) s'
    else if decide (Int.to_uint32 op = Int.to_uint32 GET_DRM_FD)
         then Returns (0, gbm_device_get_fd <$> gbm s') s'
    else if decide (Int.to_uint32 op = Int.to_uint32 GET_USAGE)
         then Returns (0, None) s'
    else Returns (- EINVAL, None) s'.
Proof.
  intros Hi. unfold gbm_mod_perform. unfold mbind at 1, M_bind at 1.
  rewrite Hi. repeat case_decide; reflexivity.
Qed.

(** C7.  [perform] dispatches on the 32-bit value of the op code.  Once
    the device is initialised: the get-DRM-fd op stores the descriptor of
    the device through the out-pointer and returns 0; the get-usage op
    returns 0 and stores nothing; every other op code returns [- EINVAL]
    and stores nothing.  An op code outside the two fails with [- EINVAL]
    whatever the initialisation does. *)
Theorem perform_dispatch drv op s :
  (Int.to_uint32 op ≠ Int.to_uint32 GET_DRM_FD →
   Int.to_uint32 op ≠ Int.to_uint32 GET_USAGE →
   ∃ s', gbm_mod_perform GET_DRM_FD GET_USAGE drv op s
         = Returns (- EINVAL, None) s')
  ∧ (∀ s', gbm_init drv s = Returns 0 s' →
       (Int.to_uint32 op = Int.to_uint32 GET_DRM_FD →
        ∃ d, gbm s' = Some d
             ∧ gbm_mod_perform GET_DRM_FD GET_USAGE drv op s
               = Returns (0, Some (gbm_device_get_fd d)) s')
       ∧ (Int.to_uint32 op = Int.to_uint32 GET_USAGE →
          gbm_mod_perform GET_DRM_FD GET_USAGE drv op s
          = Returns (0, None) s')
       ∧ (Int.to_uint32 op ≠ Int.to_uint32 GET_DRM_FD →
          Int.to_uint32 op ≠ Int.to_uint32 GET_USAGE →
          gbm_mod_perform GET_DRM_FD GET_USAGE drv op s
          = Returns (- EINVAL, None) s')).
Proof.
  split.
  - intros Hfd Hus.
    destruct (gbm_init_cases drv s) as [(s' & Hi & _) | [Hi _]];
      rewrite (perform_after_init _ op _ _ _ Hi);
      repeat case_decide; try contradiction; try lia; eauto.
  - intros s' Hi. rewrite (perform_after_init _ op _ _ _ Hi).
    destruct (gbm_init_cases drv s) as [(s'' & Hi' & [d Hd]) | [Hi' _]];
      rewrite Hi' in Hi; inversion Hi; subst; clear Hi.
    repeat split.
    + intros Hfd. exists d. rewrite Hd. repeat case_decide;
        try contradiction; try lia; eauto.
    + intros Hus. repeat case_decide; try contradiction; try lia; eauto.
    + intros Hfd Hus. repeat case_decide; try contradiction; try lia; eauto.
Qed.

End Perform.

Lemma perform_dispatch_witness :
  gbm_mod_perform Fixture.GET_DRM_FD Fixture.GET_USAGE Fixture.granting
    Fixture.GET_DRM_FD HAL_MODULE_INFO_SYM
  = Returns (0, Some 7) Fixture.initialised
  ∧ gbm_mod_perform Fixture.GET_DRM_FD Fixture.GET_USAGE Fixture.granting
      Fixture.GET_USAGE HAL_MODULE_INFO_SYM
    = Returns (0, None) Fixture.initialised
  ∧ gbm_mod_perform Fixture.GET_DRM_FD Fixture.GET_USAGE Fixture.granting
      5 HAL_MODULE_INFO_SYM
    = Returns (- EINVAL, None) Fixture.initialised
  ∧ ∃ s', gbm_mod_perform Fixture.GET_DRM_FD Fixture.GET_USAGE
            Fixture.refusing 5 HAL_MODULE_INFO_SYM
          = Returns (- EINVAL, None) s'.
Proof.
  assert (Hne : Int.to_uint32 Fixture.GET_DRM_FD
                ≠ Int.to_uint32 Fixture.GET_USAGE) by (vm_compute; discriminate).
  assert (Hi : gbm_init Fixture.granting HAL_MODULE_INFO_SYM
               = Returns 0 Fixture.initialised) by reflexivity.
  destruct (perform_dispatch Fixture.GET_DRM_FD Fixture.GET_USAGE Hne
              Fixture.granting Fixture.GET_DRM_FD HAL_MODULE_INFO_SYM)
    as [_ Hfd].
  destruct (Hfd _ Hi) as (Hfd1 & _ & _).
  destruct (Hfd1 eq_refl) as (d & Hd & Hrun1).
  destruct (perform_dispatch Fixture.GET_DRM_FD Fixture.GET_USAGE Hne
              Fixture.granting Fixture.GET_USAGE HAL_MODULE_INFO_SYM)
    as [_ Hus].
  destruct (Hus _ Hi) as (_ & Hus1 & _).
  destruct (perform_dispatch Fixture.GET_DRM_FD Fixture.GET_USAGE Hne
              Fixture.granting 5 HAL_MODULE_INFO_SYM)
    as [_ Hother].
  destruct (Hother _ Hi) as (_ & _ & Hother1).
  destruct (perform_dispatch Fixture.GET_DRM_FD Fixture.GET_USAGE Hne
              Fixture.refusing 5 HAL_MODULE_INFO_SYM)
    as [Hany _].
  split.
  - rewrite Hrun1. inversion Hd. reflexivity.
  - split; [apply Hus1; reflexivity |].
    split; [apply Hother1; vm_compute; discriminate |].
    apply Hany; vm_compute; discriminate.
Defined.

(** ** Opening the allocation device *)

(** A successful open names the allocation device, follows a successful
    initialisation, and yields the endpoint. *)
Lemma open_success drv name s dev s' :
  gbm_mod_open drv name s = Returns (0, dev) s' →
  name = GRALLOC_HARDWARE_GPU0
  ∧ gbm_init drv s = Returns 0 s'
  ∧ is_Some (gbm s')
  ∧ dev = Some gpu0_device.
Proof.
  unfold gbm_mod_open. intros Hrun.
  case_decide as Hn; [| discriminate].
  split; [exact Hn |].
  destruct (gbm_init_cases drv s) as [(s1 & Hi & Hdev) | [Hi _]];
    rewrite (open_gpu0_after_init _ _ _ _ Hi) in Hrun.
  - case_decide; [lia |].
    destruct (drv_new drv); cbn in Hrun; [| discriminate].
    inversion Hrun; subst. repeat split; assumption.
  - case_decide; [discriminate | unfold EINVAL in *; lia].
Qed.

(** C9.  [gbm_mod_open] succeeds only for the name of the allocation
    device, and then after a successful device initialisation, returning
    the endpoint with its alloc and free operations bound; for that name,
    once the device is initialised and the endpoint object obtained, it
    does succeed; for every other name it returns [- EINVAL], stores no
    device and leaves the state as it was. *)
Theorem open_dispatch drv name s :
  (name ≠ GRALLOC_HARDWARE_GPU0 →
   gbm_mod_open drv name s = Returns (- EINVAL, None) s)
  ∧ (∀ dev s',
       gbm_mod_open drv name s = Returns (0, dev) s' →
       name = GRALLOC_HARDWARE_GPU0
       ∧ gbm_init drv s = Returns 0 s'
       ∧ is_Some (gbm s')
       ∧ dev = Some gpu0_device
       ∧ alloc gpu0_device = Gbm_mod_alloc_gpu0
       ∧ free gpu0_device = Gbm_mod_free_gpu0)
  ∧ (name = GRALLOC_HARDWARE_GPU0 →
     ∀ s', gbm_init drv s = Returns 0 s' → drv_new drv = true →
           gbm_mod_open drv name s = Returns (0, Some gpu0_device) s').
Proof.
  split; [| split].
  - intros Hn. unfold gbm_mod_open. case_decide; [contradiction | reflexivity].
  - intros dev s' Hrun.
    destruct (open_success _ _ _ _ _ Hrun) as (Hn & Hi & Hdev & Hd).
    repeat split; assumption.
  - intros Hn s' Hi Hnew. unfold gbm_mod_open. case_decide; [| contradiction].
    rewrite (open_gpu0_after_init _ _ _ _ Hi), Hnew.
    case_decide; [lia | reflexivity].
Qed.

Lemma open_dispatch_witness :
  gbm_mod_open Fixture.granting "fb0" HAL_MODULE_INFO_SYM
  = Returns (- EINVAL, None) HAL_MODULE_INFO_SYM
  ∧ gbm_mod_open Fixture.granting "gpu0" HAL_MODULE_INFO_SYM
    = Returns (0, Some gpu0_device) Fixture.initialised
  ∧ is_Some (gbm Fixture.initialised).
Proof.
  destruct (open_dispatch Fixture.granting "fb0" HAL_MODULE_INFO_SYM)
    as (Hother & _ & _).
  destruct (open_dispatch Fixture.granting "gpu0" HAL_MODULE_INFO_SYM)
    as (_ & Honly & Hgpu0).
  assert (Hrun : gbm_mod_open Fixture.granting "gpu0" HAL_MODULE_INFO_SYM
                 = Returns (0, Some gpu0_device) Fixture.initialised)
    by (apply Hgpu0; reflexivity).
  split; [apply Hother; discriminate |].
  split; [exact Hrun |].
  destruct (Honly _ _ Hrun) as (_ & _ & Hdev & _). exact Hdev.
Defined.

(** ** The registry: what the calls into it compute *)

Lemma register_known drv h dev s o :
  registry s !! h_payload h = Some o →
  gralloc_gbm_handle_register drv h dev s =
    Returns 0
      (set_registry
         (<[h_payload (handle o) :=
              {| bo := bo o; handle := handle o; refcount := refcount o + 1;
                 locked := locked o; map_data := map_data o |}]> (registry s)) s).
Proof. intros Ho. run. rewrite Ho. reflexivity. Qed.

Lemma register_imported drv h dev s b :
  registry s !! h_payload h = None →
  drv_bo_import drv dev (h_payload h) = Some b →
  gralloc_gbm_handle_register drv h dev s =
    Returns 0
      (set_registry
         (<[h_payload h :=
              {| bo := b; handle := h; refcount := 1;
                 locked := false; map_data := None |}]> (registry s))
         (record (BoImport b) s)).
Proof. intros Ho Hb. run. rewrite Ho, Hb. reflexivity. Qed.

Lemma register_refused drv h dev s :
  registry s !! h_payload h = None →
  drv_bo_import drv dev (h_payload h) = None →
  gralloc_gbm_handle_register drv h dev s = Returns RegistrationError s.
Proof. intros Ho Hb. run. rewrite Ho, Hb. reflexivity. Qed.

Lemma unregister_is_registry_call h s :
  gbm_mod_unregister_buffer h s = gralloc_gbm_handle_unregister h s.
Proof.
  unfold gbm_mod_unregister_buffer, pthread_mutex_lock, pthread_mutex_unlock.
  unfold_monad. destruct (gralloc_gbm_handle_unregister h s); reflexivity.
Qed.

Lemma unregister_unknown h s :
  registry s !! h_payload h = None →
  gralloc_gbm_handle_unregister h s = Returns UnknownHandleError s.
Proof. intros Ho. run. rewrite Ho. reflexivity. Qed.

Lemma unregister_last h s o :
  registry s !! h_payload h = Some o → refcount o = 1 →
  gralloc_gbm_handle_unregister h s =
    Returns 0
      (set_registry (delete (h_payload (handle o)) (registry s))
         (record (BoDestroy (bo o)) s)).
Proof.
  intros Ho Hr. run. rewrite Ho. cbn. case_decide; [reflexivity | lia].
Qed.

Lemma unregister_shared h s o :
  registry s !! h_payload h = Some o → refcount o ≠ 1 →
  gralloc_gbm_handle_unregister h s =
    Returns 0
      (set_registry
         (<[h_payload (handle o) :=
              {| bo := bo o; handle := handle o; refcount := refcount o - 1;
                 locked := locked o; map_data := map_data o |}]> (registry s)) s).
Proof.
  intros Ho Hr. run. rewrite Ho. cbn. case_decide; [lia | reflexivity].
Qed.

(** ** Invariants of the reachable states *)

Lemma refcounts_insert s s' k o :
  refcounts_positive s → 0 < refcount o →
  registry s' = <[k := o]> (registry s) →
  refcounts_positive s'.
Proof.
  intros Hs Ho Hr k' o'. rewrite Hr, lookup_insert. case_decide.
  - intros [= <-]. exact Ho.
  - apply Hs.
Qed.

Lemma refcounts_delete s s' k :
  refcounts_positive s →
  registry s' = delete k (registry s) →
  refcounts_positive s'.
Proof.
  intros Hs Hr k' o'. rewrite Hr, lookup_delete. case_decide.
  - discriminate.
  - apply Hs.
Qed.

Lemma refcounts_same s s' :
  refcounts_positive s → registry s' = registry s → refcounts_positive s'.
Proof. intros Hs Hr k o. rewrite Hr. apply Hs. Qed.

Lemma device_single_same s s' :
  device_single s → gbm s' = gbm s →
  devices_created s' = devices_created s →
  device_single s'.
Proof. unfold device_single. intros [H1 H0] -> ->. auto. Qed.

Lemma invariant_loaded : invariant HAL_MODULE_INFO_SYM.
Proof.
  split.
  - intros k o. cbn. rewrite lookup_empty. discriminate.
  - split; cbn; [lia | reflexivity].
Qed.

Lemma invariant_record c s :
  invariant s → is_dev_create c = false → invariant (record c s).
Proof.
  intros [Hr Hd] Hc. split.
  - apply (refcounts_same s _ Hr). reflexivity.
  - apply (device_single_same s); [exact Hd | reflexivity |].
    unfold devices_created. cbn -[filter]. rewrite filter_cons.
    case_decide; [congruence | reflexivity].
Qed.

Lemma invariant_errno e s : invariant s → invariant (set_errno e s).
Proof.
  intros [Hr Hd]. split.
  - apply (refcounts_same s _ Hr). reflexivity.
  - apply (device_single_same s _ Hd); reflexivity.
Qed.

Lemma invariant_store k o s :
  invariant s → 0 < refcount o →
  invariant (set_registry (<[k := o]> (registry s)) s).
Proof.
  intros [Hr Hd] Ho. split.
  - apply (refcounts_insert s _ k o Hr Ho). reflexivity.
  - apply (device_single_same s _ Hd); reflexivity.
Qed.

Lemma invariant_delete k s :
  invariant s → invariant (set_registry (delete k (registry s)) s).
Proof.
  intros [Hr Hd]. split.
  - apply (refcounts_delete s _ k Hr). reflexivity.
  - apply (device_single_same s _ Hd); reflexivity.
Qed.

Lemma invariant_resolved h s o :
  invariant s → gralloc_gbm_bo_from_handle h s = Some o → 0 < refcount o.
Proof. intros [Hr _] Ho. exact (Hr _ _ Ho). Qed.

Lemma invariant_init drv s err s' :
  invariant s → gbm_init drv s = Returns err s' → invariant s'.
Proof.
  intros Hs Hi. destruct (gbm s) as [d |] eqn:Hg.
  - rewrite (gbm_init_present _ _ _ Hg) in Hi. inversion Hi; subst. exact Hs.
  - destruct (drv_dev_create drv) as [d |] eqn:Hd.
    + rewrite (gbm_init_created _ _ _ Hg Hd) in Hi. inversion Hi; subst.
      destruct Hs as [Hr [_ H0]]. split.
      * apply (refcounts_same s _ Hr). reflexivity.
      * specialize (H0 Hg). unfold device_single, devices_created in *.
        cbn -[filter]. rewrite filter_cons.
        case_decide; [| cbn in *; congruence]. cbn -[filter]. rewrite H0.
        split; [lia | discriminate].
    + rewrite (gbm_init_failed _ _ Hg Hd) in Hi. inversion Hi; subst. exact Hs.
Qed.

Lemma invariant_handle_register drv h dev s err s' :
  invariant s →
  gralloc_gbm_handle_register drv h dev s = Returns err s' →
  invariant s'.
Proof.
  intros Hs Hrun. destruct (registry s !! h_payload h) as [o |] eqn:Ho.
  - rewrite (register_known _ _ _ _ _ Ho) in Hrun. inversion Hrun; subst.
    apply invariant_store; [exact Hs |]. cbn.
    pose proof (invariant_resolved h s o Hs Ho). lia.
  - destruct (drv_bo_import drv dev (h_payload h)) as [b |] eqn:Hb.
    + rewrite (register_imported _ _ _ _ _ Ho Hb) in Hrun.
      inversion Hrun; subst.
      apply (invariant_store _ _ (record (BoImport b) s)); [| cbn; lia].
      apply invariant_record; [exact Hs | reflexivity].
    + rewrite (register_refused _ _ _ _ Ho Hb) in Hrun.
      inversion Hrun; subst. exact Hs.
Qed.

Lemma invariant_handle_unregister h s err s' :
  invariant s →
  gralloc_gbm_handle_unregister h s = Returns err s' →
  invariant s'.
Proof.
  intros Hs Hrun. destruct (registry s !! h_payload h) as [o |] eqn:Ho.
  - pose proof (invariant_resolved h s o Hs Ho) as Hpos.
    destruct (decide (refcount o = 1)) as [H1 | H1].
    + rewrite (unregister_last _ _ _ Ho H1) in Hrun. inversion Hrun; subst.
      apply (invariant_delete _ (record (BoDestroy (bo o)) s)).
      apply invariant_record; [exact Hs | reflexivity].
    + rewrite (unregister_shared _ _ _ Ho H1) in Hrun. inversion Hrun; subst.
      apply invariant_store; [exact Hs | cbn; lia].
  - rewrite (unregister_unknown _ _ Ho) in Hrun. inversion Hrun; subst.
    exact Hs.
Qed.

Lemma invariant_bo_lock drv o usage x y w hh s r s' :
  invariant s → 0 < refcount o →
  gralloc_gbm_bo_lock drv o usage x y w hh s = Returns r s' →
  invariant s'.
Proof.
  intros Hs Hpos Hrun. run_in Hrun.
  destruct (map_data o) as [p |]; cbn in Hrun.
  - inversion Hrun; subst. apply invariant_store; [exact Hs | exact Hpos].
  - destruct (drv_bo_map drv (bo o) usage x y w hh) as [p | e]; cbn in Hrun;
      inversion Hrun; subst; [| exact Hs].
    apply (invariant_store _ _ (record (BoMap (bo o)) s)); [| exact Hpos].
    apply invariant_record; [exact Hs | reflexivity].
Qed.

Lemma invariant_bo_unlock o s r s' :
  invariant s → 0 < refcount o →
  gralloc_gbm_bo_unlock o s = Returns r s' →
  invariant s'.
Proof.
  intros Hs Hpos Hrun. run_in Hrun.
  destruct (locked o); cbn in Hrun; [| inversion Hrun; subst; exact Hs].
  destruct (map_data o) as [p |]; cbn in Hrun; inversion Hrun; subst.
  - apply (invariant_store _ _ (record (BoUnmap (bo o)) s)); [| exact Hpos].
    apply invariant_record; [exact Hs | reflexivity].
  - apply invariant_store; [exact Hs | exact Hpos].
Qed.

Section ReachableInvariant.

Variables GET_DRM_FD GET_USAGE : Z.

Lemma invariant_exec drv r s s' :
  invariant s → exec GET_DRM_FD GET_USAGE drv r s = Returns () s' →
  invariant s'.
Proof.
  intros Hs Hrun. destruct r as [op | h | h | h usage x y w hh | h | name
                                | | w h format usage | h];
    unfold exec in Hrun; unfold mbind at 1, M_bind at 1 in Hrun.
  - (* perform *)
    destruct (gbm_init_cases drv s) as [(s1 & Hi & _) | [Hi _]];
      rewrite (perform_after_init _ _ _ op _ _ _ Hi) in Hrun;
      pose proof (invariant_init _ _ _ _ Hs Hi);
      repeat case_decide; inversion Hrun; subst; assumption.
  - (* registerBuffer *)
    destruct (gbm_init_cases drv s) as [(s1 & Hi & _) | [Hi _]];
      rewrite (register_after_init _ h _ _ _ Hi) in Hrun;
      pose proof (invariant_init _ _ _ _ Hs Hi) as Hs1;
      case_decide; try (unfold EINVAL in *; lia);
      try (inversion Hrun; subst; assumption).
    destruct (gralloc_gbm_handle_register drv h (gbm s1) s1)
      as [err s2 |] eqn:Hreg; [| discriminate].
    inversion Hrun; subst.
    exact (invariant_handle_register _ _ _ _ _ _ Hs1 Hreg).
  - (* unregisterBuffer *)
    rewrite unregister_is_registry_call in Hrun.
    destruct (gralloc_gbm_handle_unregister h s) as [err s2 |] eqn:Hun;
      [| discriminate].
    inversion Hrun; subst.
    exact (invariant_handle_unregister _ _ _ _ Hs Hun).
  - (* lock *)
    rewrite lock_is_bo_call in Hrun.
    destruct (gralloc_gbm_bo_from_handle h s) as [o |] eqn:Ho;
      [| inversion Hrun; subst; exact Hs].
    destruct (gralloc_gbm_bo_lock drv o usage x y w hh s)
      as [res s2 |] eqn:Hlock; [| discriminate].
    inversion Hrun; subst.
    exact (invariant_bo_lock _ _ _ _ _ _ _ _ _ _ Hs
             (invariant_resolved _ _ _ Hs Ho) Hlock).
  - (* unlock *)
    rewrite unlock_is_bo_call in Hrun.
    destruct (gralloc_gbm_bo_from_handle h s) as [o |] eqn:Ho;
      [| inversion Hrun; subst; exact Hs].
    destruct (gralloc_gbm_bo_unlock o s) as [res s2 |] eqn:Hunlock;
      [| discriminate].
    inversion Hrun; subst.
    exact (invariant_bo_unlock _ _ _ _ Hs
             (invariant_resolved _ _ _ Hs Ho) Hunlock).
  - (* open *)
    unfold gbm_mod_open in Hrun. case_decide;
      [| inversion Hrun; subst; exact Hs].
    destruct (gbm_init_cases drv s) as [(s1 & Hi & _) | [Hi _]];
      rewrite (open_gpu0_after_init _ _ _ _ Hi) in Hrun;
      pose proof (invariant_init _ _ _ _ Hs Hi) as Hs1;
      case_decide; try (unfold EINVAL in *; lia);
      try (inversion Hrun; subst; assumption).
    destruct (drv_new drv); inversion Hrun; subst; assumption.
  - (* close *)
    run_in Hrun. inversion Hrun; subst.
    apply invariant_record; [exact Hs | reflexivity].
  - (* alloc *)
    destruct (drv_bo_create drv (gbm s) w h format usage)
      as [[b payload] | e] eqn:Hc.
    + rewrite (alloc_created _ _ _ _ _ _ _ _ Hc) in Hrun. cbn in Hrun.
      case_decide; inversion Hrun; subst;
        [apply invariant_errno; exact Hs |].
      apply (invariant_store _ _ (record (BoCreate b) s)); [| cbn; lia].
      apply invariant_record; [exact Hs | reflexivity].
    + rewrite (alloc_refused _ _ _ _ _ _ _ Hc) in Hrun.
      case_decide; inversion Hrun; subst; apply invariant_errno; exact Hs.
  - (* free *)
    destruct (gralloc_gbm_bo_from_handle h s) as [o |] eqn:Ho.
    + rewrite (free_is_bo_call h s), Ho in Hrun. inversion Hrun; subst.
      apply invariant_record; [| reflexivity].
      apply invariant_record; [| reflexivity].
      apply (invariant_delete _ (record (BoDestroy (bo o)) s)).
      apply invariant_record; [exact Hs | reflexivity].
    + rewrite (free_is_bo_call h s), Ho in Hrun. inversion Hrun; subst.
      exact Hs.
Qed.

Lemma reachable_invariant s :
  reachable GET_DRM_FD GET_USAGE s → invariant s.
Proof.
  induction 1 as [| s drv r s' _ IH Hrun].
  - exact invariant_loaded.
  - exact (invariant_exec drv r s s' IH Hrun).
Qed.

End ReachableInvariant.

Lemma gbm_init_registry drv s err s' :
  gbm_init drv s = Returns err s' → registry s' = registry s.
Proof.
  intros Hi. destruct (gbm s) as [d |] eqn:Hg.
  - rewrite (gbm_init_present _ _ _ Hg) in Hi. inversion Hi; subst. reflexivity.
  - destruct (drv_dev_create drv) as [d |] eqn:Hd.
    + rewrite (gbm_init_created _ _ _ Hg Hd) in Hi. inversion Hi; subst.
      reflexivity.
    + rewrite (gbm_init_failed _ _ Hg Hd) in Hi. inversion Hi; subst.
      reflexivity.
Qed.

(** A successful registration of a handle that is not in the registry
    imports it with reference count 1. *)
Lemma register_buffer_fresh drv h s s1 :
  registry s !! h_payload h = None →
  gbm_mod_register_buffer drv h s = Returns 0 s1 →
  ∃ b, registry s1 =
         <[h_payload h := {| bo := b; handle := h; refcount := 1;
                             locked := false; map_data := None |}]> (registry s)
       ∧ is_Some (gbm s1).
Proof.
  intros Ho Hrun.
  destruct (gbm_init_cases drv s) as [(si & Hi & Hdev) | [Hi _]];
    rewrite (register_after_init _ h _ _ _ Hi) in Hrun;
    case_decide; try (unfold EINVAL in *; lia); try discriminate.
  pose proof (gbm_init_registry _ _ _ _ Hi) as Hreg.
  rewrite <- Hreg in Ho.
  destruct (drv_bo_import drv (gbm si) (h_payload h)) as [b |] eqn:Hb.
  - rewrite (register_imported _ _ _ _ _ Ho Hb) in Hrun.
    inversion Hrun; subst. exists b. cbn. rewrite Hreg. split; [reflexivity |].
    exact Hdev.
  - rewrite (register_refused _ _ _ _ Ho Hb) in Hrun. discriminate.
Qed.

(** A registration of a handle that is in the registry adds one to its
    reference count, and changes nothing else. *)
Lemma register_buffer_known drv h s o :
  registry s !! h_payload h = Some o → is_Some (gbm s) →
  gbm_mod_register_buffer drv h s =
    Returns 0
      (set_registry
         (<[h_payload (handle o) :=
              {| bo := bo o; handle := handle o; refcount := refcount o + 1;
                 locked := locked o; map_data := map_data o |}]> (registry s)) s).
Proof.
  intros Ho [d Hd].
  rewrite (register_after_init _ h _ _ _ (gbm_init_present drv s d Hd)).
  case_decide; [lia |]. exact (register_known _ _ _ _ _ Ho).
Qed.

(** C3.  Reference counting at the register/unregister interface.  For a
    handle that is not yet in the registry, after two successful
    registrations and one unregistration its entry is present with
    reference count 1; a second unregistration destroys the buffer object
    and removes the entry; a third fails with UnknownHandleError and leaves
    the state as it was.  In every state the module can reach, every entry
    of the registry has a positive reference count. *)
Theorem register_unregister_refcount :
  (∀ drv1 drv2 h s s1 s2,
     registry s !! h_payload h = None →
     gbm_mod_register_buffer drv1 h s = Returns 0 s1 →
     gbm_mod_register_buffer drv2 h s1 = Returns 0 s2 →
     ∃ o1 o2 o s3 s4,
       registry s1 !! h_payload h = Some o1
       ∧ refcount o1 = 1
       ∧ registry s2 !! h_payload h = Some o2
       ∧ refcount o2 = 2
       ∧ gbm_mod_unregister_buffer h s2 = Returns 0 s3
       ∧ registry s3 !! h_payload h = Some o
       ∧ refcount o = 1
       ∧ gbm_mod_unregister_buffer h s3 = Returns 0 s4
       ∧ registry s4 !! h_payload h = None
       ∧ calls s4 = BoDestroy (bo o) :: calls s3
       ∧ gbm_mod_unregister_buffer h s4 = Returns UnknownHandleError s4)
  ∧ (∀ fd_code usage_code s,
       reachable fd_code usage_code s → refcounts_positive s).
Proof.
  split.
  - intros drv1 drv2 h s s1 s2 Hfresh Hreg1 Hreg2.
    destruct (register_buffer_fresh _ _ _ _ Hfresh Hreg1) as (b & Hr1 & Hdev).
    set (o1 := {| bo := b; handle := h; refcount := 1;
                  locked := false; map_data := None |}) in *.
    assert (Ho1 : registry s1 !! h_payload h = Some o1)
      by (rewrite Hr1; apply lookup_insert_eq).
    rewrite (register_buffer_known _ _ _ _ Ho1 Hdev) in Hreg2.
    injection Hreg2 as Hs2. cbn in Hs2.
    set (o2 := {| bo := b; handle := h; refcount := 1 + 1;
                  locked := false; map_data := None |}) in *.
    assert (Ho2 : registry s2 !! h_payload h = Some o2)
      by (rewrite <- Hs2; cbn; apply lookup_insert_eq).
    clear Hs2.
    set (s3 := set_registry (<[h_payload h := o1]> (registry s2)) s2).
    set (s4 := set_registry (delete (h_payload h) (registry s3))
                 (record (BoDestroy b) s3)).
    exists o1, o2, o1, s3, s4.
    assert (Ho3 : registry s3 !! h_payload h = Some o1)
      by (cbn; apply lookup_insert_eq).
    assert (Ho4 : registry s4 !! h_payload h = None)
      by (cbn; apply lookup_delete_eq).
    repeat split.
    + exact Ho1.
    + exact Ho2.
    + rewrite unregister_is_registry_call.
      rewrite (unregister_shared _ _ _ Ho2); [reflexivity | cbn; lia].
    + exact Ho3.
    + rewrite unregister_is_registry_call.
      rewrite (unregister_last _ _ _ Ho3); reflexivity.
    + exact Ho4.
    + rewrite unregister_is_registry_call.
      exact (unregister_unknown _ _ Ho4).
  - intros fd_code usage_code s Hs.
    exact (proj1 (reachable_invariant fd_code usage_code s Hs)).
Qed.

Lemma register_unregister_refcount_witness :
  registry HAL_MODULE_INFO_SYM !! h_payload Fixture.h0 = None
  ∧ gbm_mod_register_buffer Fixture.granting Fixture.h0 HAL_MODULE_INFO_SYM
    = Returns 0 Fixture.registered
  ∧ (∃ s2 o1 o2 o s3 s4,
       gbm_mod_register_buffer Fixture.granting Fixture.h0 Fixture.registered
       = Returns 0 s2
       ∧ registry Fixture.registered !! h_payload Fixture.h0 = Some o1
       ∧ refcount o1 = 1
       ∧ registry s2 !! h_payload Fixture.h0 = Some o2
       ∧ refcount o2 = 2
       ∧ gbm_mod_unregister_buffer Fixture.h0 s2 = Returns 0 s3
       ∧ registry s3 !! h_payload Fixture.h0 = Some o
       ∧ refcount o = 1
       ∧ gbm_mod_unregister_buffer Fixture.h0 s3 = Returns 0 s4
       ∧ registry s4 !! h_payload Fixture.h0 = None
       ∧ calls s4 = BoDestroy (bo o) :: calls s3
       ∧ gbm_mod_unregister_buffer Fixture.h0 s4
         = Returns UnknownHandleError s4)
  ∧ refcounts_positive Fixture.registered.
Proof.
  destruct register_unregister_refcount as [Hscenario Hinvariant].
  split; [reflexivity |]. split; [reflexivity |]. split.
  - eexists.
    destruct (Hscenario Fixture.granting Fixture.granting Fixture.h0
                HAL_MODULE_INFO_SYM Fixture.registered _
                eq_refl eq_refl eq_refl)
      as (o1 & o2 & o & s3 & s4 & Hrest).
    exists o1, o2, o, s3, s4. split; [reflexivity | exact Hrest].
  - apply (Hinvariant Fixture.GET_DRM_FD Fixture.GET_USAGE).
    apply (reachable_request _ _ HAL_MODULE_INFO_SYM Fixture.granting
             (RegisterBuffer Fixture.h0)).
    + apply reachable_loaded.
    + reflexivity.
Defined.

(** C8.  Device initialisation is idempotent and single-shot.  With the
    device present, [gbm_init] returns 0 and changes nothing.  With the
    device absent and the backend refusing, it returns [- EINVAL], the
    device pointer stays null and the state is as before; register,
    perform and open hand that error to their caller and do nothing else.
    A later call may retry and, the backend granting, creates the device.
    In every state the module can reach the device has been created at
    most once, and not at all while the pointer is null. *)
Theorem gbm_init_single_shot :
  (∀ drv s d, gbm s = Some d → gbm_init drv s = Returns 0 s)
  ∧ (∀ drv s,
       gbm s = None → drv_dev_create drv = None →
       gbm_init drv s = Returns (- EINVAL) s
       ∧ - EINVAL < 0
       ∧ (∀ h, gbm_mod_register_buffer drv h s = Returns (- EINVAL) s)
       ∧ (∀ fd_code usage_code op,
            gbm_mod_perform fd_code usage_code drv op s
            = Returns (- EINVAL, None) s)
       ∧ gbm_mod_open drv GRALLOC_HARDWARE_GPU0 s = Returns (- EINVAL, None) s)
  ∧ (∀ drv1 drv2 s d,
       gbm s = None → drv_dev_create drv1 = None →
       drv_dev_create drv2 = Some d →
       ∃ s1 s2,
         gbm_init drv1 s = Returns (- EINVAL) s1
         ∧ gbm s1 = None
         ∧ gbm_init drv2 s1 = Returns 0 s2
         ∧ gbm s2 = Some d
         ∧ calls s2 = DevCreate d :: calls s)
  ∧ (∀ fd_code usage_code s,
       reachable fd_code usage_code s → device_single s).
Proof.
  split; [| split; [| split]].
  - intros drv s d Hg. exact (gbm_init_present drv s d Hg).
  - intros drv s Hg Hd.
    pose proof (gbm_init_failed drv s Hg Hd) as Hi.
    split; [exact Hi |]. split; [reflexivity |]. split; [| split].
    + intros h. rewrite (register_after_init _ h _ _ _ Hi).
      case_decide; [reflexivity | unfold EINVAL in *; lia].
    + intros fd_code usage_code op.
      rewrite (perform_after_init _ _ _ op _ _ _ Hi).
      case_decide; [reflexivity | unfold EINVAL in *; lia].
    + unfold gbm_mod_open. case_decide; [| contradiction].
      rewrite (open_gpu0_after_init _ _ _ _ Hi).
      case_decide; [reflexivity | unfold EINVAL in *; lia].
  - intros drv1 drv2 s d Hg Hd1 Hd2.
    exists s, (set_gbm (Some d) (record (DevCreate d) s)).
    rewrite (gbm_init_failed _ _ Hg Hd1), (gbm_init_created _ _ _ Hg Hd2).
    repeat split. exact Hg.
  - intros fd_code usage_code s Hs.
    exact (proj2 (reachable_invariant fd_code usage_code s Hs)).
Qed.

Lemma gbm_init_single_shot_witness :
  gbm_init Fixture.refusing Fixture.initialised = Returns 0 Fixture.initialised
  ∧ gbm_init Fixture.refusing HAL_MODULE_INFO_SYM
    = Returns (- EINVAL) HAL_MODULE_INFO_SYM
  ∧ gbm_mod_register_buffer Fixture.refusing Fixture.h0 HAL_MODULE_INFO_SYM
    = Returns (- EINVAL) HAL_MODULE_INFO_SYM
  ∧ (∃ s1 s2,
       gbm_init Fixture.refusing HAL_MODULE_INFO_SYM = Returns (- EINVAL) s1
       ∧ gbm s1 = None
       ∧ gbm_init Fixture.granting s1 = Returns 0 s2
       ∧ gbm s2 = Some Fixture.device
       ∧ calls s2 = DevCreate Fixture.device :: calls HAL_MODULE_INFO_SYM)
  ∧ device_single Fixture.initialised.
Proof.
  destruct gbm_init_single_shot as (Hpresent & Hfailed & Hretry & Honce).
  split; [exact (Hpresent Fixture.refusing Fixture.initialised
                   Fixture.device eq_refl) |].
  destruct (Hfailed Fixture.refusing HAL_MODULE_INFO_SYM eq_refl eq_refl)
    as (Hinit & _ & Hregister & _ & _).
  split; [exact Hinit |]. split; [exact (Hregister Fixture.h0) |].
  split.
  - exact (Hretry Fixture.refusing Fixture.granting HAL_MODULE_INFO_SYM
             Fixture.device eq_refl eq_refl eq_refl).
  - apply (Honce Fixture.GET_DRM_FD Fixture.GET_USAGE).
    apply (reachable_request _ _ HAL_MODULE_INFO_SYM Fixture.granting
             (Open GRALLOC_HARDWARE_GPU0)).
    + apply reachable_loaded.
    + reflexivity.
Defined.

(** ** Closing the allocation device *)

(** [gbm_mod_close_gpu0] destroys the device and leaves [dmod->gbm] as it
    is, so an initialisation that follows finds a device and creates
    none. *)
Lemma close_keeps_device_pointer drv s d :
  gbm s = Some d →
  gbm_mod_close_gpu0 s = Returns 0 (record (DevDestroy (Some d)) s)
  ∧ gbm_init drv (record (DevDestroy (Some d)) s)
    = Returns 0 (record (DevDestroy (Some d)) s).
Proof.
  intros Hg. split.
  - run. rewrite Hg. reflexivity.
  - apply (gbm_init_present _ _ d). exact Hg.
Qed.

(** ** Further properties of the allocation path *)

(** What a successful allocation stores as stride. *)
Lemma alloc_success_stride drv w h format usage s hd st s' :
  gbm_mod_alloc_gpu0 drv w h format usage s = Returns (0, Some hd, Some st) s' →
  ∃ b payload,
    drv_bo_create drv (gbm s) w h format usage = inl (b, payload)
    ∧ 1 ≤ gralloc_gbm_get_bpp format ≤ 4
    ∧ st = Int.to_int32 (gbm_bo_get_stride b / gralloc_gbm_get_bpp format).
Proof.
  intros Hrun.
  destruct (drv_bo_create drv (gbm s) w h format usage)
    as [[b payload] | e] eqn:Hc.
  - rewrite (alloc_created _ _ _ _ _ _ _ _ Hc) in Hrun. cbn in Hrun.
    case_decide as Hbpp; [discriminate |]. inversion Hrun; subst.
    exists b, payload. pose proof (bpp_range format).
    split; [reflexivity |]. split; [lia | reflexivity].
  - rewrite (alloc_refused _ _ _ _ _ _ _ Hc) in Hrun.
    case_decide; discriminate.
Qed.

(** X2.  For a format of two or more bytes per pixel, the stride a
    successful allocation stores is a non-negative [int] and is the byte
    stride divided with truncation: stride * bpp <= byte stride <
    stride * bpp + bpp. *)
Theorem alloc_stride_truncates drv w h format usage s hd st s' :
  gbm_mod_alloc_gpu0 drv w h format usage s = Returns (0, Some hd, Some st) s' →
  2 ≤ gralloc_gbm_get_bpp format →
  ∃ b payload,
    drv_bo_create drv (gbm s) w h format usage = inl (b, payload)
    ∧ 0 ≤ st ≤ Int.INT_MAX
    ∧ st * gralloc_gbm_get_bpp format ≤ gbm_bo_get_stride b
    ∧ gbm_bo_get_stride b
      < st * gralloc_gbm_get_bpp format + gralloc_gbm_get_bpp format.
Proof.
  intros Hrun Hbpp.
  destruct (alloc_success_stride _ _ _ _ _ _ _ _ _ Hrun)
    as (b & payload & Hc & Hr & Hst).
  exists b, payload. split; [exact Hc |].
  pose proof (to_uint32_range (gbm_bo_stride b)) as Hs.
  fold (gbm_bo_get_stride b) in Hs.
  set (bs := gbm_bo_get_stride b) in *.
  set (bpp := gralloc_gbm_get_bpp format) in *.
  assert (Hq0 : 0 ≤ bs / bpp) by (apply Z.div_pos; lia).
  assert (Hq1 : bs / bpp < 2 ^ 31) by (apply Z.div_lt_upper_bound; lia).
  rewrite to_int32_id in Hst
    by (unfold Int.INT_MIN, Int.INT_MAX; lia).
  subst st. unfold Int.INT_MAX.
  pose proof (Z.mul_div_le bs bpp ltac:(lia)).
  pose proof (Z.mul_succ_div_gt bs bpp ltac:(lia)).
  repeat split; lia.
Qed.

Lemma alloc_stride_truncates_witness :
  ∃ hd s',
    gbm_mod_alloc_gpu0 Edge.granting_odd 64 64 HAL_PIXEL_FORMAT_RGB_888 0
      Fixture.initialised = Returns (0, Some hd, Some 333) s'
    ∧ 333 * 3 ≤ gbm_bo_get_stride Edge.odd_bo
    ∧ gbm_bo_get_stride Edge.odd_bo < 333 * 3 + 3.
Proof.
  eexists _, _. split; [reflexivity |].
  destruct (alloc_stride_truncates Edge.granting_odd 64 64
              HAL_PIXEL_FORMAT_RGB_888 0 Fixture.initialised _ 333 _ eq_refl)
    as (b & payload & Hc & _ & Hlow & Hhigh).
  - vm_compute. discriminate.
  - inversion Hc; subst. split; [exact Hlow | exact Hhigh].
Defined.

(** X3.  For a format of one byte per pixel the stride is the byte stride
    itself stored into an [int]: a byte stride of 2^31 or more comes back
    negative, as the byte stride minus 2^32. *)
Theorem alloc_stride_wraps drv w h format usage s hd st s' b payload :
  gbm_mod_alloc_gpu0 drv w h format usage s = Returns (0, Some hd, Some st) s' →
  drv_bo_create drv (gbm s) w h format usage = inl (b, payload) →
  gralloc_gbm_get_bpp format = 1 →
  2 ^ 31 ≤ gbm_bo_get_stride b →
  st = gbm_bo_get_stride b - 2 ^ 32 ∧ st < 0.
Proof.
  intros Hrun Hc Hbpp Hbig.
  destruct (alloc_success_stride _ _ _ _ _ _ _ _ _ Hrun)
    as (b' & payload' & Hc' & _ & Hst).
  rewrite Hc in Hc'. inversion Hc'; subst b' payload'.
  rewrite Hbpp, Z.div_1_r in Hst.
  pose proof (to_uint32_range (gbm_bo_stride b)) as Hs.
  fold (gbm_bo_get_stride b) in Hs.
  assert (Hw : Int.to_int32 (gbm_bo_get_stride b) = gbm_bo_get_stride b - 2 ^ 32).
  { unfold Int.to_int32.
    replace (gbm_bo_get_stride b + 2 ^ 31)
      with ((gbm_bo_get_stride b - 2 ^ 31) + 1 * 2 ^ 32) by lia.
    rewrite Z_mod_plus_full, Z.mod_small; lia. }
  rewrite Hw in Hst. split; [exact Hst | lia].
Qed.

Lemma alloc_stride_wraps_witness :
  ∃ hd s',
    gbm_mod_alloc_gpu0 Edge.granting_huge 64 64 HAL_PIXEL_FORMAT_YV12 0
      Fixture.initialised = Returns (0, Some hd, Some (- 2 ^ 31)) s'
    ∧ - 2 ^ 31 = gbm_bo_get_stride Edge.huge_bo - 2 ^ 32.
Proof.
  assert (Hrun : ∃ hd s',
             gbm_mod_alloc_gpu0 Edge.granting_huge 64 64 HAL_PIXEL_FORMAT_YV12 0
               Fixture.initialised = Returns (0, Some hd, Some (- 2 ^ 31)) s')
    by (eexists _, _; reflexivity).
  destruct Hrun as (hd & s' & Hrun). exists hd, s'. split; [exact Hrun |].
  assert (Hbig : 2 ^ 31 ≤ gbm_bo_get_stride Edge.huge_bo)
    by (vm_compute; discriminate).
  destruct (alloc_stride_wraps Edge.granting_huge 64 64 HAL_PIXEL_FORMAT_YV12 0
              Fixture.initialised hd (- 2 ^ 31) s' Edge.huge_bo Fixture.payload
              Hrun eq_refl eq_refl Hbig) as [Hst _].
  exact Hst.
Defined.

(** ** What each request does to the device pointer *)

Lemma same_device_refl s : same_device s s.
Proof. split; reflexivity. Qed.

Lemma same_device_trans s1 s2 s3 :
  same_device s1 s2 → same_device s2 s3 → same_device s1 s3.
Proof. intros [Hg1 Hc1] [Hg2 Hc2]. split; congruence. Qed.

Lemma same_device_record c s :
  is_dev_create c = false → same_device s (record c s).
Proof.
  intros Hc. split; [reflexivity |].
  unfold devices_created. cbn -[filter]. rewrite filter_cons.
  case_decide; [congruence | reflexivity].
Qed.

Lemma same_device_registry r s : same_device s (set_registry r s).
Proof. split; reflexivity. Qed.

Lemma same_device_errno e s : same_device s (set_errno e s).
Proof. split; reflexivity. Qed.

Lemma same_device_handle_register drv h dev s err s' :
  gralloc_gbm_handle_register drv h dev s = Returns err s' → same_device s s'.
Proof.
  intros Hrun. destruct (registry s !! h_payload h) as [o |] eqn:Ho.
  - rewrite (register_known _ _ _ _ _ Ho) in Hrun. inversion Hrun; subst.
    apply same_device_registry.
  - destruct (drv_bo_import drv dev (h_payload h)) as [b |] eqn:Hb.
    + rewrite (register_imported _ _ _ _ _ Ho Hb) in Hrun.
      inversion Hrun; subst.
      apply (same_device_trans _ (record (BoImport b) s));
        [apply same_device_record; reflexivity | apply same_device_registry].
    + rewrite (register_refused _ _ _ _ Ho Hb) in Hrun.
      inversion Hrun; subst. apply same_device_refl.
Qed.

Lemma same_device_handle_unregister h s err s' :
  gralloc_gbm_handle_unregister h s = Returns err s' → same_device s s'.
Proof.
  intros Hrun. destruct (registry s !! h_payload h) as [o |] eqn:Ho.
  - destruct (decide (refcount o = 1)) as [H1 | H1].
    + rewrite (unregister_last _ _ _ Ho H1) in Hrun. inversion Hrun; subst.
      apply (same_device_trans _ (record (BoDestroy (bo o)) s));
        [apply same_device_record; reflexivity | apply same_device_registry].
    + rewrite (unregister_shared _ _ _ Ho H1) in Hrun. inversion Hrun; subst.
      apply same_device_registry.
  - rewrite (unregister_unknown _ _ Ho) in Hrun. inversion Hrun; subst.
    apply same_device_refl.
Qed.

Lemma same_device_bo_lock drv o usage x y w hh s r s' :
  gralloc_gbm_bo_lock drv o usage x y w hh s = Returns r s' → same_device s s'.
Proof.
  intros Hrun. run_in Hrun.
  destruct (map_data o) as [p |]; cbn in Hrun.
  - inversion Hrun; subst. apply same_device_registry.
  - destruct (drv_bo_map drv (bo o) usage x y w hh) as [p | e]; cbn in Hrun;
      inversion Hrun; subst; [| apply same_device_refl].
    apply (same_device_trans _ (record (BoMap (bo o)) s));
      [apply same_device_record; reflexivity | apply same_device_registry].
Qed.

Lemma same_device_bo_unlock o s r s' :
  gralloc_gbm_bo_unlock o s = Returns r s' → same_device s s'.
Proof.
  intros Hrun. run_in Hrun.
  destruct (locked o); cbn in Hrun;
    [| inversion Hrun; subst; apply same_device_refl].
  destruct (map_data o) as [p |]; cbn in Hrun; inversion Hrun; subst.
  - apply (same_device_trans _ (record (BoUnmap (bo o)) s));
      [apply same_device_record; reflexivity | apply same_device_registry].
  - apply same_device_registry.
Qed.

(** [gbm_init] keeps the device it finds, or creates the one the driver
    grants. *)
Lemma gbm_init_device drv s err s' :
  gbm_init drv s = Returns err s' →
  same_device s s'
  ∨ (gbm s = None
     ∧ ∃ d, drv_dev_create drv = Some d ∧ gbm s' = Some d
            ∧ devices_created s' = S (devices_created s)).
Proof.
  intros Hi. destruct (gbm s) as [d |] eqn:Hg.
  - rewrite (gbm_init_present _ _ _ Hg) in Hi. inversion Hi; subst.
    left. apply same_device_refl.
  - destruct (drv_dev_create drv) as [d |] eqn:Hd.
    + rewrite (gbm_init_created _ _ _ Hg Hd) in Hi. inversion Hi; subst.
      right. split; [reflexivity |]. exists d.
      split; [reflexivity |]. split; [reflexivity |].
      unfold devices_created. cbn -[filter]. rewrite filter_cons.
      case_decide; [reflexivity | cbn in *; congruence].
    + rewrite (gbm_init_failed _ _ Hg Hd) in Hi. inversion Hi; subst.
      left. apply same_device_refl.
Qed.

Section DevicePointer.

Variables GET_DRM_FD GET_USAGE : Z.

Lemma exec_device drv r s s' :
  exec GET_DRM_FD GET_USAGE drv r s = Returns () s' →
  same_device s s'
  ∨ (gbm s = None ∧ initialises r = true
     ∧ ∃ d, drv_dev_create drv = Some d ∧ gbm s' = Some d
            ∧ devices_created s' = S (devices_created s)).
Proof.
  intros Hrun.
  assert (Hafter : ∀ err si,
            initialises r = true → gbm_init drv s = Returns err si →
            same_device si s' →
            same_device s s'
            ∨ (gbm s = None ∧ initialises r = true
               ∧ ∃ d, drv_dev_create drv = Some d ∧ gbm s' = Some d
                      ∧ devices_created s' = S (devices_created s))).
  { intros err si Hr Hi [Hg Hc].
    destruct (gbm_init_device _ _ _ _ Hi) as [Hsame | (Hnone & d & Hd & Hgi & Hci)].
    - left. exact (same_device_trans _ _ _ Hsame (conj Hg Hc)).
    - right. split; [exact Hnone |]. split; [exact Hr |].
      exists d. split; [exact Hd |]. split; congruence. }
  destruct r as [op | h | h | h usage x y w hh | h | name
                | | w h format usage | h];
    unfold exec in Hrun; unfold mbind at 1, M_bind at 1 in Hrun.
  - (* perform *)
    destruct (gbm_init drv s) as [err si |] eqn:Hi;
      [| destruct (gbm_init_cases drv s) as [(? & ? & _) | [? _]]; congruence].
    rewrite (perform_after_init _ _ _ op _ _ _ Hi) in Hrun.
    apply (Hafter err si eq_refl eq_refl).
    repeat case_decide; inversion Hrun; subst; apply same_device_refl.
  - (* registerBuffer *)
    destruct (gbm_init drv s) as [err si |] eqn:Hi;
      [| destruct (gbm_init_cases drv s) as [(? & ? & _) | [? _]]; congruence].
    rewrite (register_after_init _ h _ _ _ Hi) in Hrun.
    apply (Hafter err si eq_refl eq_refl).
    case_decide; [inversion Hrun; subst; apply same_device_refl |].
    destruct (gralloc_gbm_handle_register drv h (gbm si) si)
      as [e s2 |] eqn:Hreg; [| discriminate].
    inversion Hrun; subst.
    exact (same_device_handle_register _ _ _ _ _ _ Hreg).
  - (* unregisterBuffer *)
    left. rewrite unregister_is_registry_call in Hrun.
    destruct (gralloc_gbm_handle_unregister h s) as [e s2 |] eqn:Hun;
      [| discriminate].
    inversion Hrun; subst. exact (same_device_handle_unregister _ _ _ _ Hun).
  - (* lock *)
    left. rewrite lock_is_bo_call in Hrun.
    destruct (gralloc_gbm_bo_from_handle h s) as [o |];
      [| inversion Hrun; subst; apply same_device_refl].
    destruct (gralloc_gbm_bo_lock drv o usage x y w hh s)
      as [res s2 |] eqn:Hlock; [| discriminate].
    inversion Hrun; subst. exact (same_device_bo_lock _ _ _ _ _ _ _ _ _ _ Hlock).
  - (* unlock *)
    left. rewrite unlock_is_bo_call in Hrun.
    destruct (gralloc_gbm_bo_from_handle h s) as [o |];
      [| inversion Hrun; subst; apply same_device_refl].
    destruct (gralloc_gbm_bo_unlock o s) as [res s2 |] eqn:Hunlock;
      [| discriminate].
    inversion Hrun; subst. exact (same_device_bo_unlock _ _ _ _ Hunlock).
  - (* open *)
    unfold gbm_mod_open in Hrun. case_decide as Hn;
      [| left; inversion Hrun; subst; apply same_device_refl].
    destruct (gbm_init drv s) as [err si |] eqn:Hi;
      [| destruct (gbm_init_cases drv s) as [(? & ? & _) | [? _]]; congruence].
    rewrite (open_gpu0_after_init _ _ _ _ Hi) in Hrun.
    apply (Hafter err si); [cbn; apply bool_decide_eq_true; exact Hn | reflexivity |].
    case_decide; [inversion Hrun; subst; apply same_device_refl |].
    destruct (drv_new drv); inversion Hrun; subst; apply same_device_refl.
  - (* close *)
    left. run_in Hrun. inversion Hrun; subst.
    apply same_device_record. reflexivity.
  - (* alloc *)
    left. destruct (drv_bo_create drv (gbm s) w h format usage)
      as [[b payload] | e] eqn:Hc.
    + rewrite (alloc_created _ _ _ _ _ _ _ _ Hc) in Hrun. cbn in Hrun.
      case_decide; inversion Hrun; subst; [apply same_device_errno |].
      apply (same_device_trans _ (record (BoCreate b) s));
        [apply same_device_record; reflexivity | apply same_device_registry].
    + rewrite (alloc_refused _ _ _ _ _ _ _ Hc) in Hrun.
      case_decide; inversion Hrun; subst; apply same_device_errno.
  - (* free *)
    left. rewrite (free_is_bo_call h s) in Hrun.
    destruct (gralloc_gbm_bo_from_handle h s) as [o |];
      inversion Hrun; subst; [| apply same_device_refl].
    apply (same_device_trans _ (set_registry (delete (h_payload (handle o))
                                                (registry s))
                                  (record (BoDestroy (bo o)) s))).
    + apply (same_device_trans _ (record (BoDestroy (bo o)) s));
        [apply same_device_record; reflexivity | apply same_device_registry].
    + apply (same_device_trans _ (record (NativeHandleClose h)
                                    (set_registry (delete (h_payload (handle o))
                                                     (registry s))
                                       (record (BoDestroy (bo o)) s))));
        apply same_device_record; reflexivity.
Qed.

End DevicePointer.

Section DevicePointerTheorems.

Variables GET_DRM_FD GET_USAGE : Z.

(** X4.  What a request can do to the device pointer.  A request either
    leaves [dmod->gbm] and the number of created devices as they were, or
    it found the pointer null, is one of the three that call [gbm_init]
    ([perform], [registerBuffer], [open] of the allocation device), and set
    the pointer to the device the driver granted.  So alloc, free, lock,
    unlock, unregisterBuffer and close never initialise the device, and no
    request replaces or clears a device that is there. *)
Theorem request_device_footprint drv r s s' :
  exec GET_DRM_FD GET_USAGE drv r s = Returns () s' →
  (gbm s' = gbm s ∧ devices_created s' = devices_created s)
  ∨ (gbm s = None ∧ initialises r = true
     ∧ ∃ d, drv_dev_create drv = Some d ∧ gbm s' = Some d
            ∧ devices_created s' = S (devices_created s)).
Proof. exact (exec_device GET_DRM_FD GET_USAGE drv r s s'). Qed.

(** X5.  Once the device is there, no sequence of requests, under any
    answers of the driver, changes the device pointer or creates another
    device. *)
Theorem device_kept_across_requests l s s' d :
  run GET_DRM_FD GET_USAGE l s = Returns () s' →
  gbm s = Some d →
  gbm s' = Some d ∧ devices_created s' = devices_created s.
Proof.
  revert s. induction l as [| [drv r] l IH]; intros s Hrun Hg.
  - cbn in Hrun. inversion Hrun; subst. split; [exact Hg | reflexivity].
  - cbn in Hrun. unfold mbind at 1, M_bind at 1 in Hrun.
    destruct (exec GET_DRM_FD GET_USAGE drv r s) as [[] s1 |] eqn:Hstep;
      [| discriminate].
    destruct (exec_device _ _ _ _ _ _ Hstep) as [[Hg1 Hc1] | (Hnone & _)];
      [| congruence].
    rewrite Hg in Hg1. destruct (IH s1 Hrun Hg1) as [Hg' Hc'].
    split; [exact Hg' | congruence].
Qed.

End DevicePointerTheorems.

Lemma request_device_footprint_witness :
  exec Fixture.GET_DRM_FD Fixture.GET_USAGE Fixture.granting
    (Perform 5) HAL_MODULE_INFO_SYM = Returns () Fixture.initialised
  ∧ gbm HAL_MODULE_INFO_SYM = None
  ∧ gbm Fixture.initialised = Some Fixture.device
  ∧ devices_created Fixture.initialised = 1%nat.
Proof.
  assert (Hrun : exec Fixture.GET_DRM_FD Fixture.GET_USAGE Fixture.granting
                   (Perform 5) HAL_MODULE_INFO_SYM
                 = Returns () Fixture.initialised) by reflexivity.
  split; [exact Hrun |].
  destruct (request_device_footprint _ _ _ _ _ _ Hrun)
    as [[Hg Hc] | (Hnone & _ & d & Hd & Hg & Hc)].
  - discriminate Hg.
  - split; [exact Hnone |]. split; [| exact Hc].
    rewrite Hg. rewrite <- Hd. reflexivity.
Defined.

Lemma device_kept_across_requests_witness :
  ∃ s',
    run Fixture.GET_DRM_FD Fixture.GET_USAGE
      [ (Fixture.refusing, Close);
        (Fixture.granting, Open GRALLOC_HARDWARE_GPU0);
        (Fixture.granting, Alloc 64 64 HAL_PIXEL_FORMAT_RGBA_8888 0);
        (Fixture.refusing, Perform Fixture.GET_DRM_FD);
        (Fixture.granting, Free Fixture.h0) ]
      Fixture.initialised = Returns () s'
    ∧ gbm s' = Some Fixture.device
    ∧ devices_created s' = devices_created Fixture.initialised.
Proof.
  eexists. split; [reflexivity |].
  apply (device_kept_across_requests Fixture.GET_DRM_FD Fixture.GET_USAGE
           [ (Fixture.refusing, Close);
             (Fixture.granting, Open GRALLOC_HARDWARE_GPU0);
             (Fixture.granting, Alloc 64 64 HAL_PIXEL_FORMAT_RGBA_8888 0);
             (Fixture.refusing, Perform Fixture.GET_DRM_FD);
             (Fixture.granting, Free Fixture.h0) ]
           Fixture.initialised).
  - reflexivity.
  - reflexivity.
Defined.

(** ** Closing and reusing the module *)

(** X6.  [gbm_mod_close_gpu0] always returns 0, destroys whatever
    [dmod->gbm] holds and leaves the pointer as it is.  With a device
    there, the pointer is stale from then on, and the functions that only
    test it take the destroyed device for a live one: the next [gbm_init]
    returns 0 and creates nothing, and the next [open] of the allocation
    device hands out an endpoint without a new device. *)
Theorem close_leaves_destroyed_device drv s :
  let s1 := record (DevDestroy (gbm s)) s in
  gbm_mod_close_gpu0 s = Returns 0 s1
  ∧ gbm s1 = gbm s
  ∧ devices_created s1 = devices_created s
  ∧ ∀ d, gbm s = Some d →
      gbm_init drv s1 = Returns 0 s1
      ∧ (drv_new drv = true →
         gbm_mod_open drv GRALLOC_HARDWARE_GPU0 s1
         = Returns (0, Some gpu0_device) s1).
Proof.
  cbn zeta. split; [reflexivity |]. split; [reflexivity |].
  split; [apply (same_device_record (DevDestroy (gbm s)) s); reflexivity |].
  intros d Hg.
  assert (Hg1 : gbm (record (DevDestroy (gbm s)) s) = Some d) by exact Hg.
  pose proof (gbm_init_present drv _ d Hg1) as Hi.
  split; [exact Hi |].
  intros Hnew. unfold gbm_mod_open. case_decide; [| contradiction].
  rewrite (open_gpu0_after_init _ _ _ _ Hi), Hnew.
  case_decide; [lia | reflexivity].
Qed.

Lemma close_leaves_destroyed_device_witness :
  gbm_mod_close_gpu0 Fixture.initialised
  = Returns 0 (record (DevDestroy (Some Fixture.device)) Fixture.initialised)
  ∧ gbm_mod_open Fixture.refusing GRALLOC_HARDWARE_GPU0
      (record (DevDestroy (Some Fixture.device)) Fixture.initialised)
    = Returns (0, Some gpu0_device)
        (record (DevDestroy (Some Fixture.device)) Fixture.initialised).
Proof.
  destruct (close_leaves_destroyed_device Fixture.refusing Fixture.initialised)
    as (Hclose & _ & _ & Hafter).
  split; [exact Hclose |].
  destruct (Hafter Fixture.device eq_refl) as (_ & Hopen).
  apply Hopen. reflexivity.
Defined.

(** ** Initialisation comes before validation *)

(** X7.  [perform] and [registerBuffer] call [gbm_init] before they look
    at the op code or the handle, and keep the device it created when
    they fail afterwards.  On a module without device whose driver grants
    one: [perform] with an unknown op code returns [- EINVAL] and leaves
    the device created; [registerBuffer] hands the new device to the
    registry and returns what the registry returns. *)
Theorem failing_requests_keep_device fd_code usage_code drv s d :
  gbm s = None → drv_dev_create drv = Some d →
  let s1 := set_gbm (Some d) (record (DevCreate d) s) in
  (∀ op, Int.to_uint32 op ≠ Int.to_uint32 fd_code →
         Int.to_uint32 op ≠ Int.to_uint32 usage_code →
         gbm_mod_perform fd_code usage_code drv op s
         = Returns (- EINVAL, None) s1)
  ∧ (∀ h, gbm_mod_register_buffer drv h s
          = gralloc_gbm_handle_register drv h (Some d) s1).
Proof.
  intros Hg Hd. cbn zeta.
  pose proof (gbm_init_created drv s d Hg Hd) as Hi.
  split.
  - intros op Hfd Hus. rewrite (perform_after_init _ _ _ op _ _ _ Hi).
    repeat case_decide; try lia; try contradiction. reflexivity.
  - intros h. rewrite (register_after_init _ h _ _ _ Hi).
    case_decide; [lia | reflexivity].
Qed.

Lemma failing_requests_keep_device_witness :
  gbm_mod_perform Fixture.GET_DRM_FD Fixture.GET_USAGE Edge.device_only 5
    HAL_MODULE_INFO_SYM
  = Returns (- EINVAL, None) Fixture.initialised
  ∧ gbm_mod_register_buffer Edge.device_only Fixture.h0 HAL_MODULE_INFO_SYM
    = Returns RegistrationError Fixture.initialised.
Proof.
  destruct (failing_requests_keep_device Fixture.GET_DRM_FD Fixture.GET_USAGE
              Edge.device_only HAL_MODULE_INFO_SYM Fixture.device
              eq_refl eq_refl)
    as (Hperform & Hregister).
  split.
  - apply Hperform; vm_compute; discriminate.
  - rewrite Hregister. reflexivity.
Defined.

(** ** The op code of [perform] as an [int] *)

(** An [int] has the 32-bit pattern of [code] exactly when it is [code]
    converted to [int]. *)
Lemma int_matches_label op code :
  Int.INT_MIN ≤ op ≤ Int.INT_MAX →
  Int.to_uint32 op = Int.to_uint32 code ↔ op = Int.to_int32 code.
Proof.
  unfold Int.INT_MIN, Int.INT_MAX, Int.to_uint32, Int.to_int32. intros Hop.
  split.
  - intros Heq.
    rewrite <- (Zplus_mod_idemp_l code), <- Heq, Zplus_mod_idemp_l.
    rewrite Z.mod_small; lia.
  - intros ->.
    rewrite Zminus_mod_idemp_l.
    replace (code + 2 ^ 31 - 2 ^ 31) with code by lia. reflexivity.
Qed.

(** X8.  [perform] compares the op code as a [uint32_t], so for the [int]
    it is called with, the get-DRM-fd query is answered exactly when that
    [int] is the case label converted to [int]: for a label above
    [INT_MAX] this is a negative number. *)
Theorem perform_matches_int_bit_pattern fd_code usage_code drv op s d :
  Int.to_uint32 fd_code ≠ Int.to_uint32 usage_code →
  gbm s = Some d →
  Int.INT_MIN ≤ op ≤ Int.INT_MAX →
  gbm_mod_perform fd_code usage_code drv op s
  = Returns (0, Some (gbm_device_get_fd d)) s
  ↔ op = Int.to_int32 fd_code.
Proof.
  intros Hne Hg Hop.
  rewrite (perform_after_init _ _ _ op _ _ _ (gbm_init_present drv s d Hg)).
  rewrite <- (int_matches_label op fd_code Hop).
  case_decide; [lia |]. rewrite Hg. cbn.
  case_decide as Hfd.
  - split; [intros _; exact Hfd | reflexivity].
  - case_decide; (split; [discriminate | contradiction]).
Qed.

Lemma perform_matches_int_bit_pattern_witness :
  Edge.high_code_as_int = Int.to_int32 Edge.high_code
  ∧ gbm_mod_perform Edge.high_code Fixture.GET_USAGE Fixture.refusing
      Edge.high_code_as_int Fixture.initialised
    = Returns (0, Some 7) Fixture.initialised.
Proof.
  split; [reflexivity |].
  apply (perform_matches_int_bit_pattern Edge.high_code Fixture.GET_USAGE
           Fixture.refusing Edge.high_code_as_int Fixture.initialised
           Fixture.device).
  - vm_compute. discriminate.
  - reflexivity.
  - vm_compute. split; discriminate.
  - reflexivity.
Defined.

(** ** The results of [gbm_init] and of free *)

(** X9.  [gbm_init] always returns, with 0 or [- EINVAL]; it returns 0
    exactly when [dmod->gbm] is non-null on return; it leaves the registry
    of buffer objects alone; and after a success, however it came about,
    a further call under any driver returns 0 and changes nothing. *)
Theorem gbm_init_result drv1 drv2 s :
  ∃ err s1,
    gbm_init drv1 s = Returns err s1
    ∧ (err = 0 ∨ err = - EINVAL)
    ∧ (err = 0 ↔ is_Some (gbm s1))
    ∧ registry s1 = registry s
    ∧ (err = 0 → gbm_init drv2 s1 = Returns 0 s1).
Proof.
  destruct (gbm_init_cases drv1 s) as [(s1 & Hi & [d Hd]) | [Hi Hnone]].
  - exists 0, s1. split; [exact Hi |]. split; [left; reflexivity |].
    split; [split; [intros _; eauto | reflexivity] |].
    split; [exact (gbm_init_registry _ _ _ _ Hi) |].
    intros _. exact (gbm_init_present drv2 s1 d Hd).
  - exists (- EINVAL), s. split; [exact Hi |]. split; [right; reflexivity |].
    split.
    + split; [discriminate |]. rewrite Hnone. intros [d Hd]. discriminate Hd.
    + split; [reflexivity |]. intros He. discriminate He.
Qed.


(** ** Requests that do not touch the buffers *)

Section Queries.

Variables GET_DRM_FD GET_USAGE : Z.

(** X11.  [perform], [open] and close never change the registry of buffer
    objects, whatever their arguments and whether they succeed or fail. *)
Theorem queries_keep_registry drv r s s' :
  exec GET_DRM_FD GET_USAGE drv r s = Returns () s' →
  match r with Perform _ | Open _ | Close => True | _ => False end →
  registry s' = registry s.
Proof.
  intros Hrun Hr.
  destruct r as [op | h | h | h usage x y w hh | h | name
                | | w h format usage | h]; try contradiction;
    unfold exec in Hrun; unfold mbind at 1, M_bind at 1 in Hrun.
  - destruct (gbm_init drv s) as [err si |] eqn:Hi;
      [| destruct (gbm_init_cases drv s) as [(? & ? & _) | [? _]]; congruence].
    rewrite (perform_after_init _ _ _ op _ _ _ Hi) in Hrun.
    pose proof (gbm_init_registry _ _ _ _ Hi).
    repeat case_decide; inversion Hrun; subst; assumption.
  - unfold gbm_mod_open in Hrun. case_decide as Hn;
      [| inversion Hrun; subst; reflexivity].
    destruct (gbm_init drv s) as [err si |] eqn:Hi;
      [| destruct (gbm_init_cases drv s) as [(? & ? & _) | [? _]]; congruence].
    rewrite (open_gpu0_after_init _ _ _ _ Hi) in Hrun.
    pose proof (gbm_init_registry _ _ _ _ Hi).
    case_decide; [inversion Hrun; subst; assumption |].
    destruct (drv_new drv); inversion Hrun; subst; assumption.
  - run_in Hrun. inversion Hrun; subst. reflexivity.
Qed.

End Queries.

Lemma queries_keep_registry_witness :
  exec Fixture.GET_DRM_FD Fixture.GET_USAGE Fixture.refusing Close
    Fixture.registered
  = Returns () (record (DevDestroy (Some Fixture.device)) Fixture.registered)
  ∧ registry (record (DevDestroy (Some Fixture.device)) Fixture.registered)
    = registry Fixture.registered.
Proof.
  assert (Hrun : exec Fixture.GET_DRM_FD Fixture.GET_USAGE Fixture.refusing
                   Close Fixture.registered
                 = Returns () (record (DevDestroy (Some Fixture.device))
                                 Fixture.registered)) by reflexivity.
  split; [exact Hrun |].
  exact (queries_keep_registry _ _ _ _ _ _ Hrun I).
Defined.

(** ** A refused allocation and the value of [errno] *)

(** X12.  When the backend refuses the create request for a supported
    format, [gbm_mod_alloc_gpu0] returns the negated [errno] and stores
    nothing.  The result is therefore 0, the code of success, exactly
    when the refused request left [errno] at 0: the caller is then told of
    a success that stored no handle and no stride. *)
Theorem alloc_refused_result drv w h format usage s e :
  gralloc_gbm_get_bpp format ≠ 0 →
  drv_bo_create drv (gbm s) w h format usage = inr e →
  Int.INT_MIN < e ≤ Int.INT_MAX →
  gbm_mod_alloc_gpu0 drv w h format usage s
  = Returns (- e, None, None) (set_errno e s)
  ∧ (- e = 0 ↔ e = 0).
Proof.
  intros Hbpp Hc He. rewrite (alloc_refused _ _ _ _ _ _ _ Hc).
  case_decide; [contradiction |].
  rewrite to_int32_id by (unfold Int.INT_MIN, Int.INT_MAX in *; lia).
  split; [reflexivity | lia].
Qed.

Lemma alloc_refused_result_witness :
  gbm_mod_alloc_gpu0
    {| drv_dev_create := None;
       drv_bo_create := λ _ _ _ _ _, inr 0;
       drv_bo_import := λ _ _, None;
       drv_bo_map := λ _ _ _ _ _ _, inr (- EINVAL);
       drv_new := true |}
    64 64 HAL_PIXEL_FORMAT_RGBA_8888 0 Fixture.initialised
  = Returns (0, None, None) (set_errno 0 Fixture.initialised).
Proof.
  destruct (alloc_refused_result
              {| drv_dev_create := None;
                 drv_bo_create := λ _ _ _ _ _, inr 0;
                 drv_bo_import := λ _ _, None;
                 drv_bo_map := λ _ _ _ _ _ _, inr (- EINVAL);
                 drv_new := true |}
              64 64 HAL_PIXEL_FORMAT_RGBA_8888 0 Fixture.initialised 0)
    as [Hrun _].
  - vm_compute. discriminate.
  - reflexivity.
  - vm_compute. split; [reflexivity | discriminate].
  - exact Hrun.
Defined.
